(** * The strategic orchestrator (src/orchestrator/orchestrator.py)

    A shallow embedding of [StrategicOrchestrator]: its persistent [state]
    dictionary, the LangGraph workflow built by [_build_graph], the control
    tick [step] and the read-only accessor [get_debug_info].

    The four strategic nodes and the tactical executor live in other modules
    (nodes/core_nodes.py, nodes/strategist.py, tactical_frozen.py).  They are
    collaborators of the orchestrator and enter the development as section
    variables: each one is a function on an abstract collaborator state that
    either raises or returns normally. *)

From stdpp Require Import gmap strings list fin_maps.
From Stdlib Require Import ZArith.

Open Scope Z_scope.
Open Scope string_scope.
Open Scope list_scope.

(** ** Python values and exceptions *)

(** The values the orchestrator stores in, and reads from, its dictionaries.
    Floating-point metric readings are never inspected by the orchestrator;
    a metrics object is carried around as a [VDict]. *)
#[local] Unset Elimination Schemes.
Inductive value : Type :=
  | VNone
  | VInt (n : Z)
  | VBool (b : bool)
  | VStr (s : string)
  | VList (l : list value)
  | VDict (d : list (string * value)).
#[local] Set Elimination Schemes.

(** Exceptions that can leave [step].  [StageError] and [TacticalError] are
    raised by the collaborators; the others by the interpreter or by the
    graph executor. *)
Inductive exn : Type :=
  | KeyError (key : string)
  | TypeError
  | ZeroDivisionError
  | InvalidUpdateError
  | GraphRecursionError
  | StageError (msg : string)
  | TacticalError (msg : string).

(** A Python [dict] with string keys. *)
Abbreviation pydict := (gmap string value).

(** [x + 1] for the [+=] of the step counter: defined on [int] (and on
    [bool], a subclass of [int]); a [TypeError] on every other value. *)
Definition py_add1 (v : value) : exn + value :=
  match v with
  | VInt n => inr (VInt (n + 1))
  | VBool b => inr (VInt (Z.b2z b + 1))
  | _ => inl TypeError
  end.

(** [x % d] with an [int] divisor: floor modulo, the sign follows the
    divisor, and a zero divisor raises. *)
Definition py_mod (v : value) (d : Z) : exn + value :=
  match v with
  | VInt n => if Z.eqb d 0 then inl ZeroDivisionError else inr (VInt (n mod d))
  | VBool b => if Z.eqb d 0 then inl ZeroDivisionError else inr (VInt (Z.b2z b mod d))
  | _ => inl TypeError
  end.

(** [x == 0]. *)
Definition py_is_zero (v : value) : bool :=
  match v with
  | VInt n => Z.eqb n 0
  | VBool b => negb b
  | _ => false
  end.

(** [d.get(k)] and [d.get(k, default)]. *)
Definition dict_get (d : pydict) (k : string) (dflt : value) : value :=
  default dflt (d !! k).

(** [d.update(other)]: the keys of [other] win. *)
Definition dict_update (d other : pydict) : pydict := other ∪ d.

(** ** The orchestrator and its collaborators *)

Section Orchestrator.

(** [World] is the internal state of the collaborators (the tactical policy
    and its configuration, whatever the nodes remember); [Obs] and [Action]
    are the observation vector and the selected cell index. *)
Context {World Obs Action : Type}.

(** What a tick does besides changing the orchestrator: the nodes it runs,
    the line it prints when [verbose], and the tactical call. *)
Inductive event : Type :=
  | EvPrint (step_no : value)
  | EvNode (name : string)
  | EvAct (observation : Obs).

(** ** LangGraph: [StateGraph], [compile] and [invoke]

    The fragment of LangGraph that [_build_graph] uses.  A node maps the
    current state to a partial update; every key of the state schema is a
    last-value channel.  [invoke] runs supersteps: all active nodes read the
    same snapshot, their updates are written together, and the successors of
    the active nodes become active.  Keys outside the schema are dropped, two
    writes to one key within a superstep are an [InvalidUpdateError], and
    more supersteps than [recursion_limit] a [GraphRecursionError]. *)

(** A node: from the collaborators' state and the current graph state to
    the collaborators' state afterwards and either an exception or a
    partial update.  A node reports through the update it returns; it does
    not modify the dictionary it is given. *)
Definition node_fn : Type := World → pydict → World * (exn + pydict).

Record StateGraph : Type := mkStateGraph {
  schema : gset string;
  nodes : gmap string node_fn;
  edges : list (string * string)
}.

Definition START : string := "__start__".
Definition END : string := "__end__".

Definition new_graph (keys : gset string) : StateGraph :=
  {| schema := keys; nodes := ∅; edges := [] |}.

Definition add_node (name : string) (f : node_fn) (g : StateGraph) : StateGraph :=
  {| schema := schema g; nodes := <[name := f]> (nodes g); edges := edges g |}.

Definition add_edge (a b : string) (g : StateGraph) : StateGraph :=
  {| schema := schema g; nodes := nodes g; edges := edges g ++ [(a, b)] |}.

Definition set_entry_point (a : string) (g : StateGraph) : StateGraph :=
  add_edge START a g.

Definition successors (g : StateGraph) (name : string) : list string :=
  snd <$> filter (λ e, e.1 = name) (edges g).

Definition restrict (keys : gset string) (d : pydict) : pydict :=
  filter (λ kv, kv.1 ∈ keys) d.

(** The active nodes of one superstep, all on the same snapshot. *)
Fixpoint run_nodes (g : StateGraph) (snapshot : pydict) (active : list string)
    (w : World) : World * list event * (exn + list pydict) :=
  match active with
  | [] => (w, [], inr [])
  | name :: rest =>
      match nodes g !! name with
      | None => (w, [], inl (KeyError name))
      | Some f =>
          match f w snapshot with
          | (w1, inl e) => (w1, [EvNode name], inl e)
          | (w1, inr u) =>
              let '(w2, tr, r) := run_nodes g snapshot rest w1 in
              (w2, EvNode name :: tr,
               match r with inl e => inl e | inr us => inr (u :: us) end)
          end
      end
  end.

(** Writing the updates of a superstep into the channels. *)
Fixpoint apply_writes (keys : gset string) (st : pydict) (written : gset string)
    (updates : list pydict) : exn + pydict :=
  match updates with
  | [] => inr st
  | u :: rest =>
      let u' := restrict keys u in
      if decide (dom u' ## written)
      then apply_writes keys (dict_update st u') (written ∪ dom u') rest
      else inl InvalidUpdateError
  end.

Definition next_active (g : StateGraph) (active : list string) : list string :=
  filter (λ n, n ≠ END) (remove_dups (active ≫= successors g)).

Fixpoint supersteps (limit : nat) (g : StateGraph) (active : list string)
    (w : World) (st : pydict) : World * list event * (exn + pydict) :=
  match active with
  | [] => (w, [], inr st)
  | _ =>
      match limit with
      | O => (w, [], inl GraphRecursionError)
      | S limit' =>
          match run_nodes g st active w with
          | (w1, tr1, inl e) => (w1, tr1, inl e)
          | (w1, tr1, inr updates) =>
              match apply_writes (schema g) st ∅ updates with
              | inl e => (w1, tr1, inl e)
              | inr st1 =>
                  let '(w2, tr2, r) :=
                    supersteps limit' g (next_active g active) w1 st1 in
                  (w2, tr1 ++ tr2, r)
              end
          end
      end
  end.

Definition recursion_limit : nat := 25.

Definition invoke (g : StateGraph) (input : pydict) (w : World)
    : World * list event * (exn + pydict) :=
  supersteps recursion_limit g (next_active g [START]) w (restrict (schema g) input).

(** ** The orchestrator object *)

(** [collab] stands for [self.tactical] and the four node objects,
    [state] for the dictionary [self.state]. *)
Record Orchestrator : Type := mkOrchestrator {
  collab : World;
  state : pydict
}.

(** A method call: the object afterwards, what happened, and either the
    exception that left the method or its return value. *)
Record Outcome (A : Type) : Type := mkOutcome {
  self_after : Orchestrator;
  trace : list event;
  result : exn + A
}.
Arguments mkOutcome {A} _ _ _.
Arguments self_after {A} _.
Arguments trace {A} _.
Arguments result {A} _.

Definition M (A : Type) : Type := Orchestrator → Outcome A.

Definition ret {A} (a : A) : M A := λ self, mkOutcome self [] (inr a).

(** Sequencing: an exception skips the rest, and keeps what was done. *)
Definition bind {A B} (m : M A) (k : A → M B) : M B := λ self,
  match m self with
  | mkOutcome self1 tr1 (inl e) => mkOutcome self1 tr1 (inl e)
  | mkOutcome self1 tr1 (inr a) =>
      match k a self1 with
      | mkOutcome self2 tr2 r => mkOutcome self2 (tr1 ++ tr2) r
      end
  end.

Notation "'let*' x ':=' m 'in' k" := (bind m (λ x, k))
  (at level 10, x name, m at level 100, k at level 200).

Definition lift {A} (r : exn + A) : M A := λ self, mkOutcome self [] r.

Definition emit (e : event) : M unit := λ self, mkOutcome self [e] (inr tt).

(** [self.state[k]] *)
Definition state_getitem (k : string) : M value := λ self,
  match state self !! k with
  | Some v => mkOutcome self [] (inr v)
  | None => mkOutcome self [] (inl (KeyError k))
  end.

(** [self.state[k] = v] *)
Definition state_setitem (k : string) (v : value) : M unit := λ self,
  mkOutcome (mkOrchestrator (collab self) (<[k := v]> (state self))) [] (inr tt).

(** [self.state.get(k, dflt)] *)
Definition state_get (k : string) (dflt : value) : M value := λ self,
  mkOutcome self [] (inr (dict_get (state self) k dflt)).

(** [self.state.update(d)] *)
Definition state_update (d : pydict) : M unit := λ self,
  mkOutcome (mkOrchestrator (collab self) (dict_update (state self) d)) [] (inr tt).

(** An expression over [self.state] that may raise. *)
Definition eval {A} (f : pydict → exn + A) : M A := λ self,
  mkOutcome self [] (f (state self)).

(** A call into a collaborator. *)
Definition call_collab {A} (f : World → World * (exn + A)) : M A := λ self,
  let '(w, r) := f (collab self) in
  mkOutcome (mkOrchestrator w (state self)) [] r.

(** [self.graph.invoke(input)] *)
Definition graph_invoke (g : StateGraph) (input : pydict) : M pydict := λ self,
  let '(w, tr, r) := invoke g input (collab self) in
  mkOutcome (mkOrchestrator w (state self)) tr r.

(** *** Collaborators *)

(** [ControlMode.BALANCED.value], from schemas.py. *)
Variable BALANCED : string.

(** The [run] methods of the four nodes and [TacticalExecutor.act]. *)
Variables estimator_run strategist_run shield_run configurator_run : node_fn.
Variable tactical_act : Obs → World → World * (exn + Action).

(** The keys of [OrchestratorState]. *)
Definition OrchestratorState : gset string :=
  {[ "step"; "metrics"; "symbolic_state"; "reasoning"; "proposed_mode";
     "final_mode"; "shield_active"; "applied_params"; "history";
     "current_mode" ]}.

(** [__init__]: the state the orchestrator starts from. *)
Definition initial_state : pydict :=
  {[ "step" := VInt 0;
     "current_mode" := VStr BALANCED;
     "history" := VList [] ]}.

Definition _build_graph : StateGraph :=
  let workflow := new_graph OrchestratorState in
  let workflow := add_node "estimator" estimator_run workflow in
  let workflow := add_node "strategist" strategist_run workflow in
  let workflow := add_node "shield" shield_run workflow in
  let workflow := add_node "configurator" configurator_run workflow in
  let workflow := set_entry_point "estimator" workflow in
  let workflow := add_edge "estimator" "strategist" workflow in
  let workflow := add_edge "strategist" "shield" workflow in
  let workflow := add_edge "shield" "configurator" workflow in
  let workflow := add_edge "configurator" END workflow in
  workflow.

Definition __init__ (w : World) : Orchestrator :=
  {| collab := w; state := initial_state |}.

(** The dictionary literal bound to [graph_input]. *)
Definition graph_input (metrics : value) (st : pydict) : exn + pydict :=
  match st !! "step" with
  | None => inl (KeyError "step")
  | Some n =>
      inr {[ "step" := n;
             "metrics" := metrics;
             "current_mode" := dict_get st "current_mode" VNone;
             "history" := dict_get st "history" (VList []) ]}
  end.

(** The body of the [if] in [step]: one strategic cycle. *)
Definition strategic_cycle (metrics : value) (verbose : bool) : M unit :=
  let* _ :=
    if verbose
    then let* n := state_getitem "step" in emit (EvPrint n)
    else ret tt in
  let* input := eval (graph_input metrics) in
  let* final_state := graph_invoke _build_graph input in
  let* _ := state_update final_state in
  let* current := state_getitem "current_mode" in
  let* final := state_get "final_mode" current in
  state_setitem "current_mode" final.

(** The first half of [step]: the counter and the strategic loop (Tier 2). *)
Definition strategic_loop (metrics : value) (decision_interval : Z)
    (verbose : bool) : M unit :=
  let* n := state_getitem "step" in
  let* n' := lift (py_add1 n) in
  let* _ := state_setitem "step" n' in
  let* n := state_getitem "step" in
  let* r := lift (py_mod n decision_interval) in
  if py_is_zero r then strategic_cycle metrics verbose else ret tt.

(** The second half: the tactical action (Tier 1). *)
Definition tactical_action (observation : Obs) : M Action :=
  let* _ := emit (EvAct observation) in
  let* action := call_collab (tactical_act observation) in
  ret action.

Definition step (metrics : value) (observation : Obs) (decision_interval : Z)
    (verbose : bool) : M Action :=
  let* _ := strategic_loop metrics decision_interval verbose in
  tactical_action observation.

Definition get_debug_info : M pydict :=
  let* mode := state_get "final_mode" VNone in
  let* symbolic_state := state_get "symbolic_state" VNone in
  let* reasoning := state_get "reasoning" VNone in
  let* shield_active := state_get "shield_active" VNone in
  ret ({[ "mode" := mode; "symbolic_state" := symbolic_state;
          "reasoning" := reasoning; "shield_active" := shield_active ]} : pydict).

(** ** Callers and observations *)

(** The arguments of one call to [step]. *)
Record tick : Type := mkTick {
  metrics_of : value;
  observation_of : Obs;
  interval_of : Z;
  verbose_of : bool
}.

Definition step_tick (c : tick) : M Action :=
  step (metrics_of c) (observation_of c) (interval_of c) (verbose_of c).

(** A caller that keeps ticking, whatever each call returns or raises:
    the outcomes of the calls, in order. *)
Fixpoint run (calls : list tick) (self : Orchestrator) : list (Outcome Action) :=
  match calls with
  | [] => []
  | c :: rest => let o := step_tick c self in o :: run rest (self_after o)
  end.

(** The orchestrator after the calls. *)
Definition after_calls (calls : list tick) (self : Orchestrator) : Orchestrator :=
  foldl (λ s c, self_after (step_tick c s)) self calls.

Definition is_node (e : event) : bool :=
  match e with EvNode _ => true | _ => false end.

Definition is_act (e : event) : bool :=
  match e with EvAct _ => true | _ => false end.

(** The names of the nodes that ran, in order. *)
Definition nodes_run (tr : list event) : list string :=
  omap (λ e, match e with EvNode name => Some name | _ => None end) tr.

(** A strategic cycle was started / the tactical executor was called. *)
Definition cycle_ran (tr : list event) : bool := existsb is_node tr.
Definition acted (tr : list event) : bool := existsb is_act tr.

(** The orchestrator once the counter holds [v]. *)
Definition counted (self : Orchestrator) (v : value) : Orchestrator :=
  {| collab := collab self; state := <["step" := v]> (state self) |}.

(** The state after the last three statements of a cycle, given the
    dictionary [final_state] that [invoke] returned. *)
Definition committed (st final_state : pydict) : pydict :=
  let st' := dict_update st final_state in
  <["current_mode" :=
      dict_get st' "final_mode" (dict_get st' "current_mode" VNone)]> st'.

(** ** The pipeline of the specification *)

(** The specification describes the strategic loop as a runner that
    executes a fixed list of stages in sequence and folds each partial
    update (restricted to the fields of the state) into the accumulating
    state before the next stage runs. *)
Fixpoint PipelineRunner (stages : list (string * node_fn)) (w : World)
    (st : pydict) : World * list event * (exn + pydict) :=
  match stages with
  | [] => (w, [], inr st)
  | (name, transform) :: rest =>
      match transform w st with
      | (w1, inl e) => (w1, [EvNode name], inl e)
      | (w1, inr u) =>
          let '(w2, tr, r) :=
            PipelineRunner rest w1 (dict_update st (restrict OrchestratorState u)) in
          (w2, EvNode name :: tr, r)
      end
  end.

Definition four_stages : list (string * node_fn) :=
  [ ("estimator", estimator_run); ("strategist", strategist_run);
    ("shield", shield_run); ("configurator", configurator_run) ].

(** Modelled from the spec: the nodes (nodes/core_nodes.py and
    nodes/strategist.py) are not part of the sources; their declared outputs
    are [symbolic_state] for the Estimator, [proposed_mode] and [reasoning]
    for the Strategist, [final_mode] and [shield_active] for the Shield and
    [applied_params] for the Configurator.  [keeps_step] is the part of this
    contract the tick counter relies on: a node never writes [step]. *)
Definition keeps_step (f : node_fn) : Prop :=
  ∀ w st w' u, f w st = (w', inr u) → u !! "step" = None.

Definition nodes_keep_step : Prop :=
  keeps_step estimator_run ∧ keeps_step strategist_run ∧
  keeps_step shield_run ∧ keeps_step configurator_run.

(** Modelled from the spec: the Shield's declared output includes
    [final_mode] whenever it returns. *)
Definition emits_final_mode (f : node_fn) : Prop :=
  ∀ w st w' u, f w st = (w', inr u) → is_Some (u !! "final_mode").

(** A node never writes the key [k]. *)
Definition keeps (k : string) (f : node_fn) : Prop :=
  ∀ w st w' u, f w st = (w', inr u) → u !! k = None.

Definition nodes_keep (k : string) : Prop :=
  keeps k estimator_run ∧ keeps k strategist_run ∧
  keeps k shield_run ∧ keeps k configurator_run.

(** [current_mode] mirrors the stored [final_mode], when there is one. *)
Definition mirrors (st : pydict) : Prop :=
  ∀ m, st !! "final_mode" = Some m → st !! "current_mode" = Some m.

End Orchestrator.

Arguments mkOutcome {World Obs A} _ _ _.
Arguments self_after {World Obs A} _.
Arguments trace {World Obs A} _.
Arguments result {World Obs A} _.

(** ** A small deployment

    Concrete collaborators on which the statements below are exercised.
    The collaborator state counts the calls made into the collaborators. *)

Module Demo.

Definition estimator : @node_fn nat := λ w _,
  (S w, inr {[ "symbolic_state" := VStr "congested" ]}).

(** Reads what the estimator wrote in the same cycle. *)
Definition strategist : @node_fn nat := λ w st,
  (S w, inr {[ "proposed_mode" := VStr "aggressive";
               "reasoning" := dict_get st "symbolic_state" VNone ]}).

Definition shield : @node_fn nat := λ w _,
  (S w, inr {[ "final_mode" := VStr "conservative";
               "shield_active" := VBool true ]}).

Definition configurator : @node_fn nat := λ w st,
  (S w, inr {[ "applied_params" :=
                 VDict [("mode", dict_get st "final_mode" VNone)] ]}).

(** An estimator that raises. *)
Definition failing_estimator : @node_fn nat := λ w _,
  (S w, inl (StageError "estimator")).

(** The tactical policy answers with the observation. *)
Definition act : nat → nat → nat * (exn + nat) := λ observation w,
  (S w, inr observation).

Definition fresh : @Orchestrator nat := __init__ "balanced" 0%nat.

Definition tick_every (n : Z) : @tick nat :=
  {| metrics_of := VDict [("rsrp", VInt (-90))]; observation_of := 7%nat;
     interval_of := n; verbose_of := false |}.

(** [step] with the healthy nodes, and with the failing estimator. *)
Definition step_ok := step estimator strategist shield configurator act.
Definition step_bad := step failing_estimator strategist shield configurator act.

(** A shield that reports on itself but names no mode. *)
Definition silent_shield : @node_fn nat := λ w _,
  (S w, inr {[ "shield_active" := VBool false ]}).

(** An orchestrator that has committed a cycle before: it stores the
    mode and the reasoning of that cycle. *)
Definition seasoned : @Orchestrator nat :=
  {| collab := 0%nat;
     state := {[ "step" := VInt 4; "current_mode" := VStr "emergency";
                 "history" := VList [VStr "cycle 1"];
                 "final_mode" := VStr "emergency";
                 "reasoning" := VStr "link lost" ]} |}.

End Demo.

(** * Properties *)

Section Properties.

Context {World Obs Action : Type}.
Variable BALANCED : string.
Variables estimator_run strategist_run shield_run configurator_run
  : @node_fn World.
Variable tactical_act : Obs → World → World * (exn + Action).

Local Abbreviation graph :=
  (_build_graph estimator_run strategist_run shield_run configurator_run).
Local Abbreviation stages :=
  (four_stages estimator_run strategist_run shield_run configurator_run).
Local Abbreviation invoke := (@invoke World Obs).
Local Abbreviation PipelineRunner := (@PipelineRunner World Obs).
Local Abbreviation strategic_loop :=
  (@strategic_loop World Obs estimator_run strategist_run shield_run
     configurator_run).
Local Abbreviation strategic_cycle :=
  (@strategic_cycle World Obs estimator_run strategist_run shield_run
     configurator_run).
Local Abbreviation step :=
  (step estimator_run strategist_run shield_run configurator_run tactical_act).
Local Abbreviation run :=
  (run estimator_run strategist_run shield_run configurator_run tactical_act).
Local Abbreviation after_calls :=
  (after_calls estimator_run strategist_run shield_run configurator_run
     tactical_act).

(** ** The graph executor on the compiled workflow *)

Lemma apply_writes_one keys st u :
  apply_writes keys st ∅ [u] = inr (dict_update st (restrict keys u)).
Proof.
  simpl. rewrite decide_True by set_solver. reflexivity.
Qed.

Lemma supersteps_one (g : @StateGraph World) k name f w st :
  nodes g !! name = Some f →
  @supersteps World Obs (S k) g [name] w st =
    match f w st with
    | (w1, inl e) => (w1, [EvNode name], inl e)
    | (w1, inr u) =>
        let '(w2, tr, r) :=
          supersteps k g (next_active g [name]) w1
            (dict_update st (restrict (schema g) u)) in
        (w2, EvNode name :: tr, r)
    end.
Proof.
  intros Hf. cbn [supersteps run_nodes]. rewrite Hf.
  destruct (f w st) as [w1 [e|u]]; [reflexivity|].
  rewrite apply_writes_one.
  destruct (supersteps _ _ _ _ _) as [[w2 tr] r]. reflexivity.
Qed.

Lemma graph_entry : next_active graph [START] = ["estimator"].
Proof. reflexivity. Qed.

Lemma graph_edges :
  next_active graph ["estimator"] = ["strategist"] ∧
  next_active graph ["strategist"] = ["shield"] ∧
  next_active graph ["shield"] = ["configurator"] ∧
  next_active graph ["configurator"] = [].
Proof. repeat split; reflexivity. Qed.

Lemma graph_nodes :
  nodes graph !! "estimator" = Some estimator_run ∧
  nodes graph !! "strategist" = Some strategist_run ∧
  nodes graph !! "shield" = Some shield_run ∧
  nodes graph !! "configurator" = Some configurator_run.
Proof. repeat split; reflexivity. Qed.

Lemma invoke_pipeline input w :
  invoke graph input w =
  PipelineRunner stages w (restrict OrchestratorState input).
Proof.
  destruct graph_nodes as (He & Hs & Hh & Hc).
  destruct graph_edges as (Ee & Es & Eh & Ec).
  unfold invoke, recursion_limit. rewrite graph_entry.
  change (schema graph) with OrchestratorState.
  generalize (restrict OrchestratorState input) as st. intros st.
  rewrite (supersteps_one _ _ _ _ _ _ He), Ee. cbn [PipelineRunner four_stages].
  destruct (estimator_run w st) as [w1 [e|u1]]; [reflexivity|].
  rewrite (supersteps_one _ _ _ _ _ _ Hs), Es.
  change (schema graph) with OrchestratorState.
  destruct (strategist_run w1 _) as [w2 [e|u2]]; [reflexivity|].
  rewrite (supersteps_one _ _ _ _ _ _ Hh), Eh.
  change (schema graph) with OrchestratorState.
  destruct (shield_run w2 _) as [w3 [e|u3]]; [reflexivity|].
  rewrite (supersteps_one _ _ _ _ _ _ Hc), Ec.
  change (schema graph) with OrchestratorState.
  destruct (configurator_run w3 _) as [w4 [e|u4]]; reflexivity.
Qed.

(** ** The runner *)

Lemma restrict_lookup keys (d : pydict) k :
  k ∈ keys → restrict keys d !! k = d !! k.
Proof.
  intros Hk. unfold restrict.
  destruct (d !! k) as [v|] eqn:E.
  - apply map_lookup_filter_Some. split; [exact E | exact Hk].
  - apply map_lookup_filter_None. left. exact E.
Qed.

Lemma restrict_lookup_None keys (d : pydict) k :
  d !! k = None → restrict keys d !! k = None.
Proof. intros E. apply map_lookup_filter_None. left. exact E. Qed.

Lemma dict_update_lookup_is_Some (d other : pydict) k :
  is_Some (d !! k) → is_Some (dict_update d other !! k).
Proof.
  intros [v Hv]. unfold dict_update.
  destruct (other !! k) as [v'|] eqn:E.
  - exists v'. apply lookup_union_Some_l. exact E.
  - exists v. rewrite lookup_union_r; [exact Hv | exact E].
Qed.

Lemma dict_update_lookup_untouched (d other : pydict) k :
  other !! k = None → dict_update d other !! k = d !! k.
Proof. intros E. unfold dict_update. apply lookup_union_r. exact E. Qed.

(** A completed run only adds or overwrites keys. *)
Lemma PipelineRunner_keys (l : list (string * node_fn)) w st w' tr fs k :
  PipelineRunner l w st = (w', tr, inr fs) →
  is_Some (st !! k) → is_Some (fs !! k).
Proof.
  revert w st tr. induction l as [|[name f] l IH]; intros w st tr; cbn.
  - intros [= _ _ <-]. auto.
  - destruct (f w st) as [w1 [e|u]]; [discriminate|].
    destruct (PipelineRunner l w1 _) as [[w2 tr2] r] eqn:E.
    intros [= -> <- ->] Hk.
    eapply IH; [exact E|]. apply dict_update_lookup_is_Some, Hk.
Qed.

(** A completed run of nodes that never write [k] leaves [k] as it was. *)
Lemma PipelineRunner_untouched (P : node_fn → Prop) k
    (l : list (string * node_fn)) w st w' tr fs :
  (∀ f, P f → ∀ w st w' u, f w st = (w', inr u) → u !! k = None) →
  Forall (λ nf, P nf.2) l →
  PipelineRunner l w st = (w', tr, inr fs) →
  fs !! k = st !! k.
Proof.
  intros HP Hl. revert w st tr.
  induction Hl as [|[name f] l Hf Hl IH]; intros w st tr; cbn.
  - intros [= _ _ <-]. reflexivity.
  - destruct (f w st) as [w1 [e|u]] eqn:Ef; [discriminate|].
    destruct (PipelineRunner l w1 _) as [[w2 tr2] r] eqn:E.
    intros [= -> <- ->].
    rewrite (IH _ _ _ E).
    apply dict_update_lookup_untouched, restrict_lookup_None.
    exact (HP f Hf _ _ _ _ Ef).
Qed.

(** What a run logs: one [EvNode] per stage it entered, in order; all of
    them when it completes. *)
Lemma PipelineRunner_trace (l : list (string * node_fn)) w st :
  ∃ names, (PipelineRunner l w st).1.2 = EvNode <$> names ∧
           names `prefix_of` l.*1 ∧
           (l ≠ [] → names ≠ []) ∧
           (∀ fs, (PipelineRunner l w st).2 = inr fs → names = l.*1).
Proof.
  revert w st. induction l as [|[name f] l IH]; intros w st; cbn.
  - exists []. split; [reflexivity|]. split; [apply prefix_nil|].
    split; [congruence|]. reflexivity.
  - destruct (f w st) as [w1 [e|u]].
    + exists [name]. cbn. split; [reflexivity|].
      split; [apply prefix_cons, prefix_nil|].
      split; [discriminate|]. discriminate.
    + destruct (IH w1 (dict_update st (restrict OrchestratorState u)))
        as (names & Htr & Hpre & _ & Hall).
      destruct (PipelineRunner l w1 _) as [[w2 tr2] r]. cbn in *.
      exists (name :: names). rewrite Htr. split; [reflexivity|].
      split; [apply prefix_cons, Hpre|].
      split; [discriminate|].
      intros fs Hfs. f_equal. eapply Hall, Hfs.
Qed.

(** ** The two halves of [step], equationally *)

Lemma outcome_eta {A} (o : @Outcome World Obs A) :
  mkOutcome (self_after o) (trace o) (result o) = o.
Proof. destruct o. reflexivity. Qed.

Lemma strategic_cycle_eq metrics verbose self v :
  state self !! "step" = Some v →
  strategic_cycle metrics verbose self =
    let input : pydict :=
      {[ "step" := v; "metrics" := metrics;
         "current_mode" := dict_get (state self) "current_mode" VNone;
         "history" := dict_get (state self) "history" (VList []) ]} in
    let printed := if verbose then [EvPrint v] else [] in
    match PipelineRunner stages (collab self) (restrict OrchestratorState input) with
    | (w, tr, inl e) =>
        mkOutcome (mkOrchestrator w (state self)) (printed ++ tr) (inl e)
    | (w, tr, inr final_state) =>
        mkOutcome (mkOrchestrator w (committed (state self) final_state))
          (printed ++ tr) (inr tt)
    end.
Proof.
  intros Hv. cbv zeta.
  unfold strategic_cycle, bind, eval, graph_input, graph_invoke,
    state_getitem, state_get, state_update, state_setitem, emit, ret.
  assert (Hkey : ∀ w tr fs,
    PipelineRunner stages (collab self)
      (restrict OrchestratorState
         {[ "step" := v; "metrics" := metrics;
            "current_mode" := dict_get (state self) "current_mode" VNone;
            "history" := dict_get (state self) "history" (VList []) ]})
      = (w, tr, inr fs) →
    ∃ cur, dict_update (state self) fs !! "current_mode" = Some cur).
  { intros w tr fs E.
    destruct (PipelineRunner_keys _ _ _ _ _ _ "current_mode" E) as [cur Hcur].
    - rewrite restrict_lookup by (unfold OrchestratorState; set_solver).
      rewrite lookup_insert_ne by done. rewrite lookup_insert_ne by done.
      rewrite lookup_insert_eq. eauto.
    - exists cur. apply lookup_union_Some_l, Hcur. }
  destruct verbose; cbv beta; rewrite ?Hv; cbv beta iota; cbn [state collab];
    rewrite ?Hv; cbv beta iota; rewrite invoke_pipeline;
    destruct (PipelineRunner _ _ _) as [[w tr] [e|fs]] eqn:E; try reflexivity.
  all: cbv beta iota; cbn [state collab].
  all: destruct (Hkey w tr fs eq_refl) as [cur Hcur]; rewrite Hcur.
  all: cbv beta iota; cbn [state collab].
  all: unfold committed, dict_get at 1 3; cbv zeta; rewrite Hcur; cbn [default app].
  all: rewrite ?app_nil_r; reflexivity.
Qed.

Lemma py_add1_int v v' : py_add1 v = inr v' → ∃ m, v' = VInt m.
Proof. destruct v; intros [= <-]; eauto. Qed.

Lemma strategic_loop_eq metrics di verbose self v m :
  state self !! "step" = Some v →
  py_add1 v = inr (VInt m) →
  strategic_loop metrics di verbose self =
    let self1 := counted self (VInt m) in
    if Z.eqb di 0 then mkOutcome self1 [] (inl ZeroDivisionError)
    else if Z.eqb (m mod di) 0 then strategic_cycle metrics verbose self1
    else mkOutcome self1 [] (inr tt).
Proof.
  intros Hv Hm. cbv zeta.
  unfold strategic_loop, bind, lift, state_getitem, state_setitem, counted.
  rewrite Hv. cbv beta iota. rewrite Hm. cbv beta iota. cbn [state collab].
  rewrite lookup_insert_eq. cbv beta iota. cbn [py_mod].
  destruct (Z.eqb di 0); [reflexivity|].
  cbv beta iota. cbn [py_is_zero].
  destruct (Z.eqb (m mod di) 0); [|reflexivity].
  destruct (strategic_cycle _ _ _) as [self2 tr2 r]. reflexivity.
Qed.

(** Without a numeric counter the tick stops at the increment. *)
Lemma strategic_loop_no_counter metrics di verbose self :
  (∀ v v', state self !! "step" = Some v → py_add1 v ≠ inr v') →
  ∃ e, strategic_loop metrics di verbose self = mkOutcome self [] (inl e).
Proof.
  intros Hnum.
  unfold strategic_loop, bind, lift, state_getitem, state_setitem.
  destruct (state self !! "step") as [v|] eqn:E; cbv beta iota;
    [|eexists; reflexivity].
  destruct (py_add1 v) as [e|v'] eqn:Ev; cbv beta iota;
    [eexists; reflexivity|].
  destruct (Hnum v v' eq_refl Ev).
Qed.

Lemma step_eq metrics obs di verbose self :
  step metrics obs di verbose self =
    let pre := strategic_loop metrics di verbose self in
    match result pre with
    | inl e => mkOutcome (self_after pre) (trace pre) (inl e)
    | inr _ =>
        let '(w, r) := tactical_act obs (collab (self_after pre)) in
        mkOutcome (mkOrchestrator w (state (self_after pre)))
          (trace pre ++ [EvAct obs]) r
    end.
Proof.
  cbv zeta. unfold step, tactical_action, bind, emit, call_collab, ret.
  destruct (strategic_loop _ _ _ _) as [self1 tr1 [e|[]]]; [reflexivity|].
  cbv beta iota. cbn [result self_after trace state collab].
  destruct (tactical_act obs _) as [w [e|a]]; cbv beta iota;
    cbn [app]; rewrite ?app_nil_r; reflexivity.
Qed.

(** ** Reading traces *)

Lemma cycle_ran_app (a b : list (@event Obs)) :
  cycle_ran (a ++ b) = cycle_ran a || cycle_ran b.
Proof. apply existsb_app. Qed.

Lemma acted_app (a b : list (@event Obs)) :
  acted (a ++ b) = acted a || acted b.
Proof. apply existsb_app. Qed.


Lemma trace_of_nodes (names : list string) :
  nodes_run (@EvNode Obs <$> names) = names ∧
  acted (@EvNode Obs <$> names) = false ∧
  (names ≠ [] → cycle_ran (@EvNode Obs <$> names) = true).
Proof.
  induction names as [|name names (IH1 & IH2 & _)]; cbn.
  - repeat split. congruence.
  - change (omap _ (EvNode <$> names)) with (nodes_run (@EvNode Obs <$> names)).
    rewrite IH1. repeat split. exact IH2.
Qed.

Lemma trace_of_print (verbose : bool) (v : value) :
  let printed : list (@event Obs) := if verbose then [EvPrint v] else [] in
  nodes_run printed = [] ∧ acted printed = false ∧ cycle_ran printed = false.
Proof. destruct verbose; repeat split. Qed.

(** Closes a goal whose hypothesis [H] says that no node event occurs in
    a trace that contains the events of a non-empty list of nodes. *)
Ltac cycle_started H :=
  rewrite ?cycle_ran_app in H;
  rewrite (proj2 (proj2 (trace_of_nodes _))) in H by (assumption || discriminate);
  rewrite orb_true_r in H; discriminate H.

(** ** The shapes of a tick *)

(** With a numeric counter, the first half of [step] has one of four
    shapes: the modulus raises; no cycle is due; a cycle is due and the
    pipeline raises; a cycle is due, the pipeline returns and its result is
    committed. *)
Lemma loop_shape metrics di (verbose : bool) self v m :
  state self !! "step" = Some v →
  py_add1 v = inr (VInt m) →
  let self1 := counted self (VInt m) in
  let printed : list (@event Obs) :=
    if verbose then [EvPrint (VInt m)] else [] in
  let pre := strategic_loop metrics di verbose self in
  (di = 0 ∧ pre = mkOutcome self1 [] (inl ZeroDivisionError)) ∨
  (di ≠ 0 ∧ m mod di ≠ 0 ∧ pre = mkOutcome self1 [] (inr tt)) ∨
  (di ≠ 0 ∧ m mod di = 0 ∧
     ∃ input w names e,
       graph_input metrics (state self1) = inr input ∧
       PipelineRunner stages (collab self) (restrict OrchestratorState input)
         = (w, EvNode <$> names, inl e) ∧
       names ≠ [] ∧
       pre = mkOutcome (mkOrchestrator w (state self1))
               (printed ++ (EvNode <$> names)) (inl e)) ∨
  (di ≠ 0 ∧ m mod di = 0 ∧
     ∃ input w final_state,
       graph_input metrics (state self1) = inr input ∧
       PipelineRunner stages (collab self) (restrict OrchestratorState input)
         = (w, EvNode <$> stages.*1, inr final_state) ∧
       pre = mkOutcome (mkOrchestrator w (committed (state self1) final_state))
               (printed ++ (EvNode <$> stages.*1)) (inr tt)).
Proof.
  intros Hv Hm self1 printed pre. subst pre.
  rewrite (strategic_loop_eq _ _ _ _ _ _ Hv Hm). cbv zeta. fold self1.
  destruct (Z.eqb_spec di 0) as [Hdi|Hdi].
  { left. split; [exact Hdi | reflexivity]. }
  right. destruct (Z.eqb_spec (m mod di) 0) as [Hmod|Hmod].
  2: { left. split; [exact Hdi|]. split; [exact Hmod | reflexivity]. }
  right.
  assert (Hs1 : state self1 !! "step" = Some (VInt m))
    by apply lookup_insert_eq.
  rewrite (strategic_cycle_eq _ _ _ _ Hs1). cbv zeta. fold printed.
  set (input := ({[ "step" := VInt m; "metrics" := metrics;
      "current_mode" := dict_get (state self1) "current_mode" VNone;
      "history" := dict_get (state self1) "history" (VList []) ]} : pydict)).
  assert (Hin : graph_input metrics (state self1) = inr input).
  { unfold graph_input. rewrite Hs1. reflexivity. }
  change (collab self1) with (collab self).
  destruct (PipelineRunner_trace stages (collab self)
              (restrict OrchestratorState input)) as (names & Htr & _ & Hne & Hall).
  destruct (PipelineRunner stages (collab self) _) as [[w tr] [e|fs]] eqn:E;
    cbn [fst snd] in Htr, Hall; subst tr.
  - left. split; [exact Hdi|]. split; [exact Hmod|].
    exists input, w, names, e. split; [exact Hin|]. split; [exact E|].
    split; [apply Hne; discriminate | reflexivity].
  - right. split; [exact Hdi|]. split; [exact Hmod|].
    rewrite (Hall fs eq_refl) in E |- *.
    exists input, w, fs. split; [exact Hin|]. split; [exact E | reflexivity].
Qed.

(** The same for the whole call. *)
Lemma step_shape metrics obs di (verbose : bool) self v m :
  state self !! "step" = Some v →
  py_add1 v = inr (VInt m) →
  let self1 := counted self (VInt m) in
  let printed : list (@event Obs) :=
    if verbose then [EvPrint (VInt m)] else [] in
  let o := step metrics obs di verbose self in
  (di = 0 ∧
     strategic_loop metrics di verbose self =
       mkOutcome self1 [] (inl ZeroDivisionError) ∧
     o = mkOutcome self1 [] (inl ZeroDivisionError)) ∨
  (di ≠ 0 ∧ m mod di ≠ 0 ∧
     strategic_loop metrics di verbose self = mkOutcome self1 [] (inr tt) ∧
     ∃ w r, tactical_act obs (collab self) = (w, r) ∧
            o = mkOutcome (mkOrchestrator w (state self1)) [EvAct obs] r) ∨
  (di ≠ 0 ∧ m mod di = 0 ∧
     ∃ input w names e,
       graph_input metrics (state self1) = inr input ∧
       PipelineRunner stages (collab self) (restrict OrchestratorState input)
         = (w, EvNode <$> names, inl e) ∧
       names ≠ [] ∧
       strategic_loop metrics di verbose self =
         mkOutcome (mkOrchestrator w (state self1))
           (printed ++ (EvNode <$> names)) (inl e) ∧
       o = mkOutcome (mkOrchestrator w (state self1))
             (printed ++ (EvNode <$> names)) (inl e)) ∨
  (di ≠ 0 ∧ m mod di = 0 ∧
     ∃ input w final_state w' r,
       graph_input metrics (state self1) = inr input ∧
       PipelineRunner stages (collab self) (restrict OrchestratorState input)
         = (w, EvNode <$> stages.*1, inr final_state) ∧
       tactical_act obs w = (w', r) ∧
       strategic_loop metrics di verbose self =
         mkOutcome (mkOrchestrator w (committed (state self1) final_state))
           (printed ++ (EvNode <$> stages.*1)) (inr tt) ∧
       o = mkOutcome (mkOrchestrator w' (committed (state self1) final_state))
             ((printed ++ (EvNode <$> stages.*1)) ++ [EvAct obs]) r).
Proof.
  intros Hv Hm self1 printed o. subst o. rewrite step_eq. cbv zeta.
  destruct (loop_shape metrics di verbose self v m Hv Hm)
    as [(Hdi & Hpre)|[(Hdi & Hmod & Hpre)|
        [(Hdi & Hmod & input & w & names & e & Hin & Hrun & Hne & Hpre)|
         (Hdi & Hmod & input & w & fs & Hin & Hrun & Hpre)]]];
    rewrite Hpre; cbn [result self_after trace state collab app].
  - left. auto.
  - right. left. split; [exact Hdi|]. split; [exact Hmod|].
    split; [reflexivity|]. fold self1.
    change (collab self1) with (collab self).
    destruct (tactical_act obs (collab self)) as [w r].
    exists w, r. split; reflexivity.
  - right. right. left. split; [exact Hdi|]. split; [exact Hmod|].
    exists input, w, names, e. auto.
  - right. right. right. split; [exact Hdi|]. split; [exact Hmod|].
    destruct (tactical_act obs w) as [w' r] eqn:Et.
    exists input, w, fs, w', r. auto 6.
Qed.

Lemma step_no_counter metrics obs di verbose self :
  (∀ v v', state self !! "step" = Some v → py_add1 v ≠ inr v') →
  ∃ e, strategic_loop metrics di verbose self = mkOutcome self [] (inl e) ∧
       step metrics obs di verbose self = mkOutcome self [] (inl e).
Proof.
  intros Hnum.
  destruct (strategic_loop_no_counter metrics di verbose self Hnum) as [e He].
  exists e. split; [exact He|]. rewrite step_eq. cbv zeta. rewrite He. reflexivity.
Qed.

Lemma counter_cases (self : @Orchestrator World) :
  (∀ v v', state self !! "step" = Some v → py_add1 v ≠ inr v') ∨
  (∃ v m, state self !! "step" = Some v ∧ py_add1 v = inr (VInt m)).
Proof.
  destruct (state self !! "step") as [v|] eqn:E; [|left; intros ? ? [=]].
  destruct (py_add1 v) as [e|v'] eqn:Ev.
  - left. intros ? ? [= <-]. congruence.
  - destruct (py_add1_int _ _ Ev) as [m ->]. right. eauto.
Qed.

Lemma stages_keep_step :
  nodes_keep_step estimator_run strategist_run shield_run configurator_run →
  Forall (λ nf : string * node_fn, keeps_step nf.2) stages.
Proof.
  intros (He & Hs & Hh & Hc). repeat constructor; assumption.
Qed.

Lemma graph_input_step metrics (st input : pydict) v :
  st !! "step" = Some v → graph_input metrics st = inr input →
  restrict OrchestratorState input !! "step" = Some v.
Proof.
  intros Hv. unfold graph_input. rewrite Hv. intros [= <-].
  rewrite restrict_lookup by (unfold OrchestratorState; set_solver).
  apply lookup_insert_eq.
Qed.

Lemma committed_lookup (st fs : pydict) k :
  k ≠ "current_mode" →
  committed st fs !! k = dict_update st fs !! k.
Proof. intros Hk. unfold committed. cbv zeta. by rewrite lookup_insert_ne. Qed.

(** ** The tick counter *)

Lemma step_advances_counter metrics obs di verbose self n :
  nodes_keep_step estimator_run strategist_run shield_run configurator_run →
  state self !! "step" = Some (VInt n) →
  state (self_after (step metrics obs di verbose self)) !! "step"
    = Some (VInt (n + 1)).
Proof.
  intros Hkeep Hn.
  destruct (step_shape metrics obs di verbose self (VInt n) (n + 1) Hn eq_refl)
    as [(_ & _ & ->)|[(_ & _ & _ & w & r & _ & ->)|
        [(_ & _ & input & w & names & e & _ & _ & _ & _ & ->)|
         (_ & _ & input & w & fs & w' & r & Hin & Hrun & _ & _ & ->)]]];
    cbn [self_after state counted]; try apply lookup_insert_eq.
  rewrite committed_lookup by done.
  apply lookup_union_Some_l.
  rewrite (PipelineRunner_untouched keeps_step "step" _ _ _ _ _ _
             (λ f H, H) (stages_keep_step Hkeep) Hrun).
  eapply graph_input_step; [|exact Hin]. apply lookup_insert_eq.
Qed.


(** ** A zero decision interval *)

(** C9.  With [decision_interval = 0] every call to [step] raises before
    anything is logged: no node runs, the tactical executor is not called
    and the collaborators are untouched.  On an integer counter [n] the
    exception is the [ZeroDivisionError] of the modulus, raised after the
    counter has been set to [n + 1]. *)
Theorem step_zero_interval metrics obs verbose self :
  let o := step metrics obs 0 verbose self in
  (∃ e, result o = inl e) ∧
  trace o = [] ∧ cycle_ran (trace o) = false ∧ acted (trace o) = false ∧
  collab (self_after o) = collab self ∧
  (∀ n, state self !! "step" = Some (VInt n) →
        result o = inl ZeroDivisionError ∧
        self_after o = counted self (VInt (n + 1))).
Proof.
  intros o. subst o.
  destruct (counter_cases self) as [Hnum|(v & m & Hv & Hm)].
  { destruct (step_no_counter metrics obs 0 verbose self Hnum) as (e & _ & ->).
    cbn [result trace self_after].
    split; [eauto|]. do 4 (split; [reflexivity|]).
    intros n Hn. destruct (Hnum _ (VInt (n + 1)) Hn). reflexivity. }
  destruct (step_shape metrics obs 0 verbose self v m Hv Hm)
    as [(_ & _ & ->)|[(Hdi & _)|[(Hdi & _)|(Hdi & _)]]];
    try (destruct Hdi; reflexivity).
  cbn [result trace self_after counted collab].
  split; [eauto|]. do 4 (split; [reflexivity|]).
  intros n Hn. rewrite Hv in Hn. injection Hn as ->. injection Hm as <-.
  split; reflexivity.
Qed.

(** ** The explainability snapshot *)

Lemma get_debug_info_eq (self : @Orchestrator World) :
  @get_debug_info World Obs self =
  mkOutcome self []
    (inr {[ "mode" := dict_get (state self) "final_mode" VNone;
            "symbolic_state" := dict_get (state self) "symbolic_state" VNone;
            "reasoning" := dict_get (state self) "reasoning" VNone;
            "shield_active" := dict_get (state self) "shield_active" VNone ]}).
Proof. reflexivity. Qed.

(** C8.  [get_debug_info] returns the four fields [mode], [symbolic_state],
    [reasoning] and [shield_active], read from the stored state with
    [None] for a missing key; it logs nothing and leaves the orchestrator,
    state and collaborators, exactly as it was. *)
Theorem get_debug_info_read_only (self : @Orchestrator World) :
  let o := @get_debug_info World Obs self in
  self_after o = self ∧
  trace o = [] ∧
  result o = inr {[ "mode" := dict_get (state self) "final_mode" VNone;
                    "symbolic_state" := dict_get (state self) "symbolic_state" VNone;
                    "reasoning" := dict_get (state self) "reasoning" VNone;
                    "shield_active" := dict_get (state self) "shield_active" VNone ]}.
Proof. intros o. subst o. rewrite get_debug_info_eq. repeat split. Qed.

(** ** Ticks without a cycle *)

Lemma step_frame metrics obs di verbose self :
  let o := step metrics obs di verbose self in
  cycle_ran (trace o) = false →
  ∀ k, k ≠ "step" → state (self_after o) !! k = state self !! k.
Proof.
  intros o Hquiet k Hk. subst o.
  destruct (counter_cases self) as [Hnum|(v & m & Hv & Hm)].
  { destruct (step_no_counter metrics obs di verbose self Hnum) as (e & _ & He).
    rewrite He. reflexivity. }
  destruct (step_shape metrics obs di verbose self v m Hv Hm)
    as [(_ & _ & Ho)|[(_ & _ & _ & w & r & _ & Ho)|
        [(_ & _ & input & w & names & e & _ & _ & Hne & _ & Ho)|
         (_ & _ & input & w & fs & w' & r & _ & _ & _ & _ & Ho)]]];
    rewrite Ho in Hquiet |- *; cbn [self_after state counted trace] in *;
    try (by rewrite lookup_insert_ne); cycle_started Hquiet.
Qed.

(** C7, as the code has it.  The state is created by the constructor with
    the counter at [0], the mode [BALANCED] and an empty history.  On a tick
    in which no cycle runs every field other than [step] keeps its value,
    and the counter itself goes from [n] to [n + 1]. *)
Theorem idle_tick_changes_counter_only metrics obs di verbose self :
  let o := step metrics obs di verbose self in
  (∀ w : World, state (__init__ BALANCED w) =
        {[ "step" := VInt 0; "current_mode" := VStr BALANCED;
           "history" := VList [] ]}) ∧
  (cycle_ran (trace o) = false →
   (∀ k, k ≠ "step" → state (self_after o) !! k = state self !! k) ∧
   (∀ n, state self !! "step" = Some (VInt n) →
         state (self_after o) = <["step" := VInt (n + 1)]> (state self))).
Proof.
  intros o. split; [reflexivity|]. intros Hquiet.
  split; [exact (step_frame metrics obs di verbose self Hquiet)|].
  intros n Hn. apply map_eq. intros k.
  destruct (decide (k = "step")) as [->|Hk].
  - rewrite lookup_insert_eq. subst o.
    destruct (step_shape metrics obs di verbose self (VInt n) (n + 1) Hn eq_refl)
      as [(_ & _ & Ho)|[(_ & _ & _ & w & r & _ & Ho)|
          [(_ & _ & input & w & names & e & _ & _ & Hne & _ & Ho)|
           (_ & _ & input & w & fs & w' & r & _ & _ & _ & _ & Ho)]]];
      rewrite Ho in Hquiet |- *; cbn [self_after state counted trace] in *;
      try apply lookup_insert_eq; cycle_started Hquiet.
  - rewrite lookup_insert_ne by done.
    exact (step_frame metrics obs di verbose self Hquiet k Hk).
Qed.

(** ** The tactical call *)

(** A node that raises in a cycle that is due makes the first half of
    [step] raise the same exception, after the cycle has started. *)
Lemma failing_pipeline_observed metrics di verbose self n input w tr e :
  state self !! "step" = Some (VInt n) →
  di ≠ 0 → (n + 1) mod di = 0 →
  graph_input metrics (<["step" := VInt (n + 1)]> (state self)) = inr input →
  invoke graph input (collab self) = (w, tr, inl e) →
  let pre := strategic_loop metrics di verbose self in
  cycle_ran (trace pre) = true ∧ result pre = inl e.
Proof.
  intros Hn Hdi Hmod Hin Hrun pre. subst pre.
  rewrite invoke_pipeline in Hrun.
  destruct (loop_shape metrics di verbose self (VInt n) (n + 1) Hn eq_refl)
    as [(? & _)|[(_ & ? & _)|
        [(_ & _ & input' & w' & names & e' & Hin' & Hrun' & Hne & ->)|
         (_ & _ & input' & w' & fs & Hin' & Hrun' & _)]]];
    try done; cbn [counted state] in Hin'; rewrite Hin in Hin';
    injection Hin' as <-; rewrite Hrun in Hrun'.
  - injection Hrun' as _ _ <-. cbn [trace result]. split; [|reflexivity].
    rewrite cycle_ran_app, (proj2 (proj2 (trace_of_nodes names)) Hne).
    apply orb_true_r.
  - discriminate.
Qed.

Lemma strategic_loop_never_acts metrics di verbose self :
  acted (trace (strategic_loop metrics di verbose self)) = false.
Proof.
  destruct (counter_cases self) as [Hnum|(v & m & Hv & Hm)].
  { destruct (strategic_loop_no_counter metrics di verbose self Hnum)
      as (e & ->). reflexivity. }
  destruct (loop_shape metrics di verbose self v m Hv Hm)
    as [(_ & ->)|[(_ & _ & ->)|
        [(_ & _ & input & w & names & e & _ & _ & _ & ->)|
         (_ & _ & input & w & fs & _ & _ & ->)]]];
    cbn [trace]; try reflexivity.
  - rewrite acted_app, (proj1 (proj2 (trace_of_nodes names))).
    by destruct verbose.
  - rewrite acted_app, (proj1 (proj2 (trace_of_nodes (stages.*1)))).
    by destruct verbose.
Qed.

(** C3, as the code has it.  [step] calls the tactical executor exactly
    when its first half returns; it then returns what [act] returns (or
    raises what [act] raises), whether or not a cycle ran.  A tick on which
    no cycle is due always gets that far.  An exception raised in the first
    half, in particular by a node of a running cycle, leaves [step] as it
    is: the tactical executor is not called and no action is returned. *)
Theorem tactical_call_follows_strategic_loop metrics obs di verbose self :
  let pre := strategic_loop metrics di verbose self in
  let o := step metrics obs di verbose self in
  (∀ e, result pre = inl e →
        result o = inl e ∧ acted (trace o) = false ∧
        self_after o = self_after pre) ∧
  (result pre = inr tt →
        trace o = trace pre ++ [EvAct obs] ∧ acted (trace pre) = false ∧
        tactical_act obs (collab (self_after pre))
          = (collab (self_after o), result o) ∧
        state (self_after o) = state (self_after pre)) ∧
  (∀ n, state self !! "step" = Some (VInt n) → di ≠ 0 →
        (n + 1) mod di ≠ 0 → result pre = inr tt) ∧
  (∀ n input w tr e,
        state self !! "step" = Some (VInt n) → di ≠ 0 →
        (n + 1) mod di = 0 →
        graph_input metrics (<["step" := VInt (n + 1)]> (state self))
          = inr input →
        invoke graph input (collab self) = (w, tr, inl e) →
        result pre = inl e).
Proof.
  intros pre o.
  pose proof (strategic_loop_never_acts metrics di verbose self) as Hacts.
  pose proof (step_eq metrics obs di verbose self) as Ho.
  cbv zeta in Ho. fold pre o in Ho, Hacts. split; [|split; [|split]].
  - intros e He. rewrite He in Ho. rewrite Ho. cbn. auto.
  - intros Hpre. rewrite Hpre in Ho.
    destruct (tactical_act obs _) as [w r]. rewrite Ho. cbn. auto.
  - intros n Hn Hdi Hmod. subst pre.
    destruct (step_shape metrics obs di verbose self (VInt n) (n + 1) Hn eq_refl)
      as [(? & _)|[(_ & _ & -> & _)|[(_ & ? & _)|(_ & ? & _)]]];
      done.
  - intros n input w tr e Hn Hdi Hmod Hin Hrun.
    exact (proj2 (failing_pipeline_observed metrics di verbose self n input
                    w tr e Hn Hdi Hmod Hin Hrun)).
Qed.

(** ** Failing cycles *)


(** ** Committed cycles *)

Lemma committed_mode (st fs : pydict) m :
  committed st fs !! "final_mode" = Some m →
  committed st fs !! "current_mode" = Some m.
Proof.
  unfold committed. cbv zeta. rewrite lookup_insert_ne by done. intros Hm.
  rewrite lookup_insert_eq. unfold dict_get at 1. rewrite Hm. reflexivity.
Qed.

Lemma PipelineRunner_cons name f (l : list (string * node_fn)) w st :
  PipelineRunner ((name, f) :: l) w st =
    match f w st with
    | (w1, inl e) => (w1, [EvNode name], inl e)
    | (w1, inr u) =>
        let '(w2, tr, r) :=
          PipelineRunner l w1 (dict_update st (restrict OrchestratorState u)) in
        (w2, EvNode name :: tr, r)
    end.
Proof. reflexivity. Qed.

Lemma pipeline_final_mode w st w' tr fs :
  emits_final_mode shield_run →
  PipelineRunner stages w st = (w', tr, inr fs) →
  is_Some (fs !! "final_mode").
Proof.
  intros Hshield. unfold four_stages. rewrite PipelineRunner_cons.
  destruct (estimator_run w st) as [w1 [e|u1]]; [discriminate|].
  rewrite PipelineRunner_cons.
  destruct (strategist_run w1 _) as [w2 [e|u2]]; [discriminate|].
  rewrite PipelineRunner_cons.
  destruct (shield_run w2 _) as [w3 [e|u3]] eqn:Eh; [discriminate|].
  rewrite PipelineRunner_cons.
  destruct (configurator_run w3 _) as [w4 [e|u4]]; [discriminate|].
  cbn. intros [= _ _ <-].
  apply dict_update_lookup_is_Some.
  destruct (Hshield _ _ _ _ Eh) as [m Hm]. exists m.
  apply lookup_union_Some_l.
  rewrite restrict_lookup by (unfold OrchestratorState; set_solver).
  exact Hm.
Qed.

(** C1 (Invariant I1).  After a call to [step] in which a cycle ran and
    completed, [current_mode] holds the committed [final_mode]; and when the
    Shield produces a [final_mode], as its contract says, there is one. *)
Theorem current_mode_is_final_mode metrics obs di verbose self :
  let pre := strategic_loop metrics di verbose self in
  let self' := self_after (step metrics obs di verbose self) in
  cycle_ran (trace pre) = true →
  result pre = inr tt →
  (∀ m, state self' !! "final_mode" = Some m →
        state self' !! "current_mode" = Some m) ∧
  (emits_final_mode shield_run →
   ∃ m, state self' !! "final_mode" = Some m ∧
        state self' !! "current_mode" = Some m).
Proof.
  intros pre self' Hran Hok. subst pre self'.
  destruct (counter_cases self) as [Hnum|(v & m & Hv & Hm)].
  { destruct (step_no_counter metrics obs di verbose self Hnum) as (e & He & _).
    rewrite He in Hok. discriminate. }
  destruct (step_shape metrics obs di verbose self v m Hv Hm)
    as [(_ & Hpre & _)|[(_ & _ & Hpre & _)|
        [(_ & _ & input & w & names & e & _ & _ & _ & Hpre & _)|
         (_ & _ & input & w & fs & w' & r & _ & Hrun & _ & _ & ->)]]];
    try (rewrite Hpre in Hok, Hran; discriminate).
  cbn [self_after state]. split; [intros m'; apply committed_mode|].
  intros Hshield.
  destruct (pipeline_final_mode _ _ _ _ _ Hshield Hrun) as [m' Hm'].
  assert (Hfm : committed (state (counted self (VInt m))) fs !! "final_mode"
                = Some m').
  { rewrite committed_lookup by done. apply lookup_union_Some_l, Hm'. }
  exists m'. split; [exact Hfm | apply committed_mode, Hfm].
Qed.

(** ** The compiled workflow *)

(** C5.  The compiled workflow has the four nodes Estimator, Strategist,
    Shield and Configurator and one chain of edges through them, from the
    entry point to [END].  Invoking it is running the four in this order,
    each on the state into which the updates of the nodes before it have
    been merged: the nodes that ran are an initial segment of the four, and
    when all four return the result is the input with the four updates
    merged in order. *)
Theorem graph_is_linear_pipeline input w :
  let merge (st u : pydict) := dict_update st (restrict OrchestratorState u) in
  let s0 := restrict OrchestratorState input in
  dom (nodes graph) = {[ "estimator"; "strategist"; "shield"; "configurator" ]} ∧
  edges graph =
    [ (START, "estimator"); ("estimator", "strategist");
      ("strategist", "shield"); ("shield", "configurator");
      ("configurator", END) ] ∧
  invoke graph input w = PipelineRunner stages w s0 ∧
  nodes_run (invoke graph input w).1.2
    `prefix_of` ["estimator"; "strategist"; "shield"; "configurator"] ∧
  (∀ w1 u1 w2 u2 w3 u3 w4 u4,
     estimator_run w s0 = (w1, inr u1) →
     strategist_run w1 (merge s0 u1) = (w2, inr u2) →
     shield_run w2 (merge (merge s0 u1) u2) = (w3, inr u3) →
     configurator_run w3 (merge (merge (merge s0 u1) u2) u3) = (w4, inr u4) →
     invoke graph input w =
       (w4,
        [EvNode "estimator"; EvNode "strategist"; EvNode "shield";
         EvNode "configurator"],
        inr (merge (merge (merge (merge s0 u1) u2) u3) u4))).
Proof.
  intros merge s0.
  split.
  { cbv [_build_graph add_node add_edge set_entry_point new_graph nodes].
    rewrite !dom_insert_L, dom_empty_L. set_solver. }
  split; [reflexivity|].
  split; [apply invoke_pipeline|]. split.
  - rewrite invoke_pipeline.
    destruct (PipelineRunner_trace stages w (restrict OrchestratorState input))
      as (names & -> & Hpre & _).
    rewrite (proj1 (trace_of_nodes names)). exact Hpre.
  - intros w1 u1 w2 u2 w3 u3 w4 u4 He Hs Hh Hc.
    rewrite invoke_pipeline. unfold four_stages.
    subst merge s0. cbv beta in *.
    rewrite PipelineRunner_cons, He, PipelineRunner_cons, Hs,
      PipelineRunner_cons, Hh, PipelineRunner_cons, Hc.
    reflexivity.
Qed.

(** ** The trigger *)

Lemma step_triggers metrics obs di verbose self n :
  state self !! "step" = Some (VInt n) → di ≠ 0 →
  cycle_ran (trace (step metrics obs di verbose self)) = true ↔
  (n + 1) mod di = 0.
Proof.
  intros Hn Hdi.
  destruct (step_shape metrics obs di verbose self (VInt n) (n + 1) Hn eq_refl)
    as [(? & _)|[(_ & Hmod & _ & w & r & _ & ->)|
        [(_ & Hmod & input & w & names & e & _ & _ & Hne & _ & ->)|
         (_ & Hmod & input & w & fs & w' & r & _ & _ & _ & _ & ->)]]];
    [done| | |]; cbn [trace].
  - split; [discriminate | intros; contradiction].
  - split; [intros _; exact Hmod | intros _].
    rewrite cycle_ran_app, (proj2 (proj2 (trace_of_nodes names)) Hne).
    apply orb_true_r.
  - split; [intros _; exact Hmod | intros _].
    rewrite !cycle_ran_app, (proj2 (proj2 (trace_of_nodes (stages.*1))))
      by discriminate.
    by rewrite orb_true_r.
Qed.

Lemma after_calls_cons c calls self :
  after_calls (c :: calls) self =
  after_calls calls
    (self_after (step (metrics_of c) (observation_of c) (interval_of c)
                   (verbose_of c) self)).
Proof. reflexivity. Qed.

Lemma run_cons c calls self :
  run (c :: calls) self =
  let o := step (metrics_of c) (observation_of c) (interval_of c)
             (verbose_of c) self in
  o :: run calls (self_after o).
Proof. reflexivity. Qed.

(** The [k]-th outcome of a run is the call on the orchestrator left by the
    [k] calls before it. *)
Lemma run_lookup calls self k c o :
  calls !! k = Some c → run calls self !! k = Some o →
  o = step (metrics_of c) (observation_of c) (interval_of c) (verbose_of c)
        (after_calls (take k calls) self).
Proof.
  revert self k. induction calls as [|c0 calls IH]; intros self k; [done|].
  rewrite run_cons. cbv zeta. rewrite !lookup_cons.
  destruct k as [|k].
  - intros [= ->] [= <-]. reflexivity.
  - intros Hc Ho. rewrite firstn_cons, after_calls_cons. by apply IH.
Qed.

Lemma after_calls_counter calls self n :
  nodes_keep_step estimator_run strategist_run shield_run configurator_run →
  state self !! "step" = Some (VInt n) →
  state (after_calls calls self) !! "step"
    = Some (VInt (n + Z.of_nat (length calls))).
Proof.
  intros Hkeep. revert self n.
  induction calls as [|c calls IH]; intros self n Hn.
  - cbn. rewrite Z.add_0_r. exact Hn.
  - rewrite after_calls_cons.
    rewrite (IH _ (n + 1)) by (by apply step_advances_counter).
    do 2 f_equal. cbn [length]. lia.
Qed.

(** C6 (Invariant I2).  Whatever the arguments and whatever the call
    does (return an action, trip over a zero interval, abort in a failing
    stage), a call to [step] on a counter [n] leaves the counter at [n + 1];
    hence after any [k] calls on a new orchestrator the counter is [k]: it
    grows by exactly one per call, never decreases and never repeats a
    value.  The nodes are assumed to honour their declared outputs, which do
    not include [step]. *)
Theorem step_counter_increments :
  nodes_keep_step estimator_run strategist_run shield_run configurator_run →
  (∀ metrics obs di verbose self n,
     state self !! "step" = Some (VInt n) →
     state (self_after (step metrics obs di verbose self)) !! "step"
       = Some (VInt (n + 1))) ∧
  (∀ calls (w : World),
     state (after_calls calls (__init__ BALANCED w)) !! "step"
       = Some (VInt (Z.of_nat (length calls)))).
Proof.
  intros Hkeep. split.
  - intros metrics obs di verbose self n. by apply step_advances_counter.
  - intros calls w.
    exact (after_calls_counter calls (__init__ BALANCED w) 0 Hkeep eq_refl).
Qed.

Lemma run_quiet_frame calls self :
  Forall (λ o, cycle_ran (trace o) = false) (run calls self) →
  ∀ k, k ≠ "step" → state (after_calls calls self) !! k = state self !! k.
Proof.
  revert self. induction calls as [|c calls IH]; intros self; [done|].
  rewrite run_cons, after_calls_cons. cbv zeta.
  intros [Hc Hrest]%Forall_cons k Hk.
  rewrite (IH _ Hrest k Hk). by apply step_frame.
Qed.

(** C2.  On a counter [n] and with a positive interval, a call to [step]
    runs the strategic cycle exactly when [(n + 1) mod decision_interval]
    is zero.  As the counter counts the calls, the [k]-th call of any
    sequence on a new orchestrator runs it exactly when [k] is a multiple of
    that call's interval; with an interval of two, four calls run it on the
    second and on the fourth and not on the first or the third. *)
Theorem cycle_runs_on_multiples_of_interval :
  (∀ metrics obs di verbose self n,
     state self !! "step" = Some (VInt n) → 0 < di →
     cycle_ran (trace (step metrics obs di verbose self)) = true ↔
     (n + 1) mod di = 0) ∧
  (nodes_keep_step estimator_run strategist_run shield_run configurator_run →
   ∀ calls w k c o,
     calls !! k = Some c → 0 < interval_of c →
     run calls (__init__ BALANCED w) !! k = Some o →
     cycle_ran (trace o) = true ↔ Z.of_nat (S k) mod interval_of c = 0) ∧
  (nodes_keep_step estimator_run strategist_run shield_run configurator_run →
   ∀ c1 c2 c3 c4 w,
     interval_of c1 = 2 → interval_of c2 = 2 →
     interval_of c3 = 2 → interval_of c4 = 2 →
     (λ o, cycle_ran (trace o)) <$> run [c1; c2; c3; c4] (__init__ BALANCED w)
       = [false; true; false; true]).
Proof.
  assert (Hrun : nodes_keep_step estimator_run strategist_run shield_run
                   configurator_run →
     ∀ calls w k c o,
       calls !! k = Some c → interval_of c ≠ 0 →
       run calls (__init__ BALANCED w) !! k = Some o →
       cycle_ran (trace o) = true ↔ Z.of_nat (S k) mod interval_of c = 0).
  { intros Hkeep calls w k c o Hc Hdi Ho.
    rewrite (run_lookup _ _ _ _ _ Hc Ho).
    replace (Z.of_nat (S k)) with (0 + Z.of_nat (length (take k calls)) + 1).
    - apply step_triggers; [|exact Hdi].
      by apply after_calls_counter.
    - rewrite length_take_le; [lia|].
      apply Nat.lt_le_incl, (lookup_lt_Some _ _ _ Hc). }
  split; [|split].
  - intros metrics obs di verbose self n Hn Hdi.
    apply step_triggers; [exact Hn | lia].
  - intros Hkeep calls w k c o Hc Hdi. apply (Hrun Hkeep); [exact Hc | lia].
  - intros Hkeep c1 c2 c3 c4 w H1 H2 H3 H4.
    set (calls := [c1; c2; c3; c4]).
    assert (Hbit : ∀ k c o b,
              calls !! k = Some c → interval_of c = 2 →
              run calls (__init__ BALANCED w) !! k = Some o →
              b = Z.eqb (Z.of_nat (S k) mod 2) 0 →
              cycle_ran (trace o) = b).
    { intros k c o b Hc H2c Ho ->.
      pose proof (Hrun Hkeep calls w k c o Hc ltac:(lia) Ho) as Hiff.
      rewrite H2c in Hiff.
      destruct (Z.eqb_spec (Z.of_nat (S k) mod 2) 0) as [E|E].
      - by apply Hiff.
      - apply not_true_is_false. intros Ht. by apply E, Hiff. }
    subst calls. rewrite !run_cons. cbv zeta. cbn [fmap list_fmap].
    apply (f_equal2 cons); [by eapply (Hbit 0%nat c1)|].
    apply (f_equal2 cons); [by eapply (Hbit 1%nat c2)|].
    apply (f_equal2 cons); [by eapply (Hbit 2%nat c3)|].
    apply (f_equal2 cons); [by eapply (Hbit 3%nat c4)|reflexivity].
Qed.

(** ** Before the first cycle *)

(** C10.  As long as no cycle has run on a new orchestrator, whatever
    calls were made, [get_debug_info] answers [None] in all four fields
    while [current_mode] is [BALANCED]; and in every state its [mode] field
    is read from [final_mode], not from [current_mode]. *)
Theorem debug_info_before_first_cycle :
  (∀ calls (w : World),
     Forall (λ o, cycle_ran (trace o) = false) (run calls (__init__ BALANCED w)) →
     let self := after_calls calls (__init__ BALANCED w) in
     result (@get_debug_info World Obs self) =
       inr {[ "mode" := VNone; "symbolic_state" := VNone;
              "reasoning" := VNone; "shield_active" := VNone ]} ∧
     state self !! "current_mode" = Some (VStr BALANCED)) ∧
  (∀ self : @Orchestrator World,
     ∃ info : pydict,
       result (@get_debug_info World Obs self) = inr info ∧
       info !! "mode" = Some (dict_get (state self) "final_mode" VNone)).
Proof.
  split.
  - intros calls w Hquiet self.
    pose proof (run_quiet_frame _ _ Hquiet) as Hframe. fold self in Hframe.
    change (state (__init__ BALANCED w)) with (initial_state BALANCED) in Hframe.
    rewrite get_debug_info_eq. cbn [result]. unfold dict_get.
    rewrite !Hframe by done. split; reflexivity.
  - intros self. eexists. rewrite get_debug_info_eq. cbn [result].
    split; [reflexivity|]. apply lookup_insert_eq.
Qed.

(** * Further properties of the tick *)

(** ** A counter that cannot be incremented *)

Lemma py_add1_error v e : py_add1 v = inl e → e = TypeError.
Proof. destruct v; intros [= <-]; reflexivity. Qed.

Lemma strategic_loop_missing metrics di verbose self :
  state self !! "step" = None →
  strategic_loop metrics di verbose self
    = mkOutcome self [] (inl (KeyError "step")).
Proof.
  intros Hv. unfold strategic_loop, bind, lift, state_getitem, state_setitem.
  rewrite Hv. reflexivity.
Qed.

Lemma strategic_loop_type_error metrics di verbose self v e :
  state self !! "step" = Some v → py_add1 v = inl e →
  strategic_loop metrics di verbose self = mkOutcome self [] (inl TypeError).
Proof.
  intros Hv He. unfold strategic_loop, bind, lift, state_getitem, state_setitem.
  rewrite Hv. cbv beta iota. rewrite He, (py_add1_error _ _ He). reflexivity.
Qed.

(** The three ways the counter can stand. *)
Lemma counter_stands (self : @Orchestrator World) :
  state self !! "step" = None ∨
  (∃ v, state self !! "step" = Some v ∧ py_add1 v = inl TypeError) ∨
  (∃ v m, state self !! "step" = Some v ∧ py_add1 v = inr (VInt m)).
Proof.
  destruct (state self !! "step") as [v|] eqn:E; [|by left].
  right. destruct (py_add1 v) as [e|v'] eqn:Ev.
  - left. exists v. by rewrite <- (py_add1_error _ _ Ev).
  - destruct (py_add1_int _ _ Ev) as [m ->]. right. eauto.
Qed.

(** A pipeline that returns, on a tick whose cycle is due. *)
Lemma committed_pipeline_observed metrics di (verbose : bool) self n input w tr fs :
  state self !! "step" = Some (VInt n) →
  di ≠ 0 → (n + 1) mod di = 0 →
  graph_input metrics (<["step" := VInt (n + 1)]> (state self)) = inr input →
  invoke graph input (collab self) = (w, tr, inr fs) →
  strategic_loop metrics di verbose self =
    mkOutcome
      (mkOrchestrator w (committed (<["step" := VInt (n + 1)]> (state self)) fs))
      ((if verbose then [EvPrint (VInt (n + 1))] else []) ++ tr) (inr tt).
Proof.
  intros Hn Hdi Hmod Hin Hrun. rewrite invoke_pipeline in Hrun.
  destruct (loop_shape metrics di verbose self (VInt n) (n + 1) Hn eq_refl)
    as [(? & _)|[(_ & ? & _)|
        [(_ & _ & input' & w' & names & e' & Hin' & Hrun' & _)|
         (_ & _ & input' & w' & fs' & Hin' & Hrun' & ->)]]];
    try done; cbn [counted state] in Hin'; rewrite Hin in Hin';
    injection Hin' as <-; rewrite Hrun in Hrun'.
  - discriminate.
  - injection Hrun' as -> -> ->. reflexivity.
Qed.

(** ** Keys are never removed *)

Lemma committed_keeps_keys (st fs : pydict) k :
  is_Some (st !! k) → is_Some (committed st fs !! k).
Proof.
  intros Hk. unfold committed. cbv zeta.
  destruct (decide (k = "current_mode")) as [->|Hne].
  - rewrite lookup_insert_eq. eauto.
  - rewrite lookup_insert_ne by done. by apply dict_update_lookup_is_Some.
Qed.

Lemma step_keeps_key metrics obs di verbose self k :
  is_Some (state self !! k) →
  is_Some (state (self_after (step metrics obs di verbose self)) !! k).
Proof.
  intros Hk.
  assert (Hcounted : ∀ v, is_Some (<["step" := v]> (state self) !! k)).
  { intros v. destruct (decide (k = "step")) as [->|Hne].
    - rewrite lookup_insert_eq. eauto.
    - by rewrite lookup_insert_ne. }
  destruct (counter_cases self) as [Hnum|(v & m & Hv & Hm)].
  { destruct (step_no_counter metrics obs di verbose self Hnum) as (e & _ & ->).
    exact Hk. }
  destruct (step_shape metrics obs di verbose self v m Hv Hm)
    as [(_ & _ & ->)|[(_ & _ & _ & w & r & _ & ->)|
        [(_ & _ & input & w & names & e & _ & _ & _ & _ & ->)|
         (_ & _ & input & w & fs & w' & r & _ & _ & _ & _ & ->)]]];
    cbn [self_after state counted]; try apply Hcounted.
  apply committed_keeps_keys, Hcounted.
Qed.

Lemma after_calls_keeps_key calls self k :
  is_Some (state self !! k) →
  is_Some (state (after_calls calls self) !! k).
Proof.
  revert self. induction calls as [|c calls IH]; intros self Hk; [exact Hk|].
  rewrite after_calls_cons. by apply IH, step_keeps_key.
Qed.

(** X1.  A call to [step] never removes a key from the state, whatever
    the nodes do and however the call ends; so on an orchestrator built by
    the constructor the keys [step], [current_mode] and [history] are there
    after any sequence of calls. *)
Theorem state_keys_are_never_removed :
  (∀ metrics obs di verbose self k,
     is_Some (state self !! k) →
     is_Some (state (self_after (step metrics obs di verbose self)) !! k)) ∧
  (∀ calls (w : World),
     let self := after_calls calls (__init__ BALANCED w) in
     is_Some (state self !! "step") ∧
     is_Some (state self !! "current_mode") ∧
     is_Some (state self !! "history")).
Proof.
  split; [intros; by apply step_keeps_key|].
  intros calls w self. subst self.
  repeat split; apply after_calls_keeps_key; eexists; reflexivity.
Qed.

(** ** The mode mirror as an invariant *)

Lemma step_keeps_mirror metrics obs di verbose self :
  mirrors (state self) →
  mirrors (state (self_after (step metrics obs di verbose self))).
Proof.
  intros Hmirror.
  assert (Hcounted : ∀ v, mirrors (<["step" := v]> (state self))).
  { intros v m. rewrite !lookup_insert_ne by done. apply Hmirror. }
  destruct (counter_cases self) as [Hnum|(v & m & Hv & Hm)].
  { destruct (step_no_counter metrics obs di verbose self Hnum) as (e & _ & ->).
    exact Hmirror. }
  destruct (step_shape metrics obs di verbose self v m Hv Hm)
    as [(_ & _ & ->)|[(_ & _ & _ & w & r & _ & ->)|
        [(_ & _ & input & w & names & e & _ & _ & _ & _ & ->)|
         (_ & _ & input & w & fs & w' & r & _ & _ & _ & _ & ->)]]];
    cbn [self_after state counted]; try apply Hcounted.
  intros m'. apply committed_mode.
Qed.

Lemma after_calls_keeps_mirror calls self :
  mirrors (state self) → mirrors (state (after_calls calls self)).
Proof.
  revert self. induction calls as [|c calls IH]; intros self Hm; [exact Hm|].
  rewrite after_calls_cons. by apply IH, step_keeps_mirror.
Qed.

(** X2.  That [current_mode] equals the stored [final_mode], when one is
    stored, is kept by every call to [step], whatever the nodes do and
    however the call ends, and holds on a new orchestrator.  So after any
    sequence of calls a [mode] other than [None] reported by
    [get_debug_info] is the current mode. *)
Theorem mode_mirror_is_invariant :
  (∀ metrics obs di verbose self,
     mirrors (state self) →
     mirrors (state (self_after (step metrics obs di verbose self)))) ∧
  (∀ calls (w : World),
     let self := after_calls calls (__init__ BALANCED w) in
     mirrors (state self) ∧
     ∀ (info : pydict) m,
       result (@get_debug_info World Obs self) = inr info →
       info !! "mode" = Some m → m ≠ VNone →
       state self !! "current_mode" = Some m).
Proof.
  split; [intros; by apply step_keeps_mirror|].
  intros calls w self.
  assert (Hmirror : mirrors (state self)).
  { apply after_calls_keeps_mirror. intros m. discriminate. }
  split; [exact Hmirror|].
  intros info m. rewrite get_debug_info_eq. cbn [result]. intros [= <-].
  rewrite lookup_insert_eq. intros [= <-] Hnone. apply Hmirror.
  unfold dict_get in *. destruct (state self !! "final_mode"); [reflexivity|].
  by destruct Hnone.
Qed.

(** ** What [step] can raise *)



(** ** What [verbose] changes *)

(** X4.  [verbose] changes nothing but the printed line: the orchestrator
    afterwards and the result are the same, and the trace of the verbose
    call is the trace of the quiet call, preceded by the line with the
    incremented counter exactly when a cycle ran. *)
Theorem verbose_only_prints metrics obs di self :
  let quiet := step metrics obs di false self in
  let loud := step metrics obs di true self in
  self_after loud = self_after quiet ∧
  result loud = result quiet ∧
  ((cycle_ran (trace quiet) = false ∧ trace loud = trace quiet) ∨
   (cycle_ran (trace quiet) = true ∧
    ∃ v m, state self !! "step" = Some v ∧ py_add1 v = inr (VInt m) ∧
           trace loud = EvPrint (VInt m) :: trace quiet)).
Proof.
  intros quiet loud. subst quiet loud. rewrite !step_eq. cbv zeta.
  destruct (counter_stands self) as [Hv|[(v & Hv & Hm)|(v & m & Hv & Hm)]].
  - rewrite !(strategic_loop_missing _ _ _ _ Hv). cbn. auto.
  - rewrite !(strategic_loop_type_error _ _ _ _ _ _ Hv Hm). cbn. auto.
  - rewrite !(strategic_loop_eq _ _ _ _ _ _ Hv Hm). cbv zeta.
    destruct (Z.eqb di 0); [cbn; auto|].
    destruct (Z.eqb (m mod di) 0).
    2: { cbn [result self_after trace state collab app].
         destruct (tactical_act obs _) as [w r]. cbn. auto. }
    assert (Hs1 : state (counted self (VInt m)) !! "step" = Some (VInt m))
      by apply lookup_insert_eq.
    rewrite !(strategic_cycle_eq _ _ _ _ Hs1). cbv zeta.
    destruct (PipelineRunner_trace stages (collab (counted self (VInt m)))
                (restrict OrchestratorState
                   {[ "step" := VInt m; "metrics" := metrics;
                      "current_mode" :=
                        dict_get (state (counted self (VInt m))) "current_mode" VNone;
                      "history" :=
                        dict_get (state (counted self (VInt m))) "history" (VList []) ]}))
      as (names & Htr & _ & Hne & _).
    destruct (PipelineRunner stages _ _) as [[w tr] [e|fs]];
      cbn [fst snd] in Htr; subst tr;
      cbn [result self_after trace state collab app].
    + split; [reflexivity|]. split; [reflexivity|]. right.
      split; [|exists v, m; auto].
      apply (proj2 (proj2 (trace_of_nodes names))), Hne. discriminate.
    + destruct (tactical_act obs w) as [w' r].
      cbn [result self_after trace state collab app].
      split; [reflexivity|]. split; [reflexivity|]. right.
      split; [|exists v, m; auto].
      rewrite cycle_ran_app.
      rewrite (proj2 (proj2 (trace_of_nodes names))) by (apply Hne; discriminate).
      reflexivity.
Qed.

(** ** The sign of the interval *)

Lemma mod_opp_is_zero m d : Z.eqb (m mod (- d)) 0 = Z.eqb (m mod d) 0.
Proof.
  destruct (Z.eq_dec d 0) as [->|Hd]; [reflexivity|].
  destruct (Z.eqb_spec (m mod d) 0) as [E|E].
  - apply Z.eqb_eq. by apply Z.mod_opp_r_z.
  - apply Z.eqb_neq. rewrite Z.mod_opp_r_nz by done. 
    pose proof (Z.mod_bound_or m d Hd). lia.
Qed.

(** X5.  Python's [%] makes the sign of [decision_interval] irrelevant:
    a call with the interval [- d] does exactly what the call with [d]
    does, so a negative interval triggers on the multiples of its absolute
    value. *)
Theorem interval_sign_is_irrelevant metrics obs di verbose self :
  step metrics obs (- di) verbose self = step metrics obs di verbose self.
Proof.
  rewrite !step_eq. cbv zeta.
  enough (strategic_loop metrics (- di) verbose self
          = strategic_loop metrics di verbose self) as -> by reflexivity.
  destruct (counter_stands self) as [Hv|[(v & Hv & Hm)|(v & m & Hv & Hm)]].
  - by rewrite !(strategic_loop_missing _ _ _ _ Hv).
  - by rewrite !(strategic_loop_type_error _ _ _ _ _ _ Hv Hm).
  - rewrite !(strategic_loop_eq _ _ _ _ _ _ Hv Hm). cbv zeta.
    rewrite mod_opp_is_zero.
    replace (Z.eqb (- di) 0) with (Z.eqb di 0); [reflexivity|].
    destruct (Z.eqb_spec di 0), (Z.eqb_spec (- di) 0); lia.
Qed.

(** ** What a cycle reads of the stored state *)

Lemma counted_get (self : @Orchestrator World) v k dflt :
  k ≠ "step" →
  dict_get (state (counted self v)) k dflt = dict_get (state self) k dflt.
Proof.
  intros Hk. unfold dict_get, counted. cbn [state].
  by rewrite lookup_insert_ne.
Qed.

(** X6.  Of the stored state a call to [step] reads only [step],
    [current_mode] and [history]: two orchestrators with the same
    collaborators that agree on these three keys return or raise the same,
    leave the same trace and the same collaborators, and afterwards agree on
    every key other than [current_mode] on which they agreed before.  What
    earlier cycles stored under other keys is not shown to the nodes. *)
Theorem step_reads_three_fields metrics obs di verbose self self' :
  collab self = collab self' →
  state self !! "step" = state self' !! "step" →
  state self !! "current_mode" = state self' !! "current_mode" →
  state self !! "history" = state self' !! "history" →
  let o := step metrics obs di verbose self in
  let o' := step metrics obs di verbose self' in
  result o = result o' ∧ trace o = trace o' ∧
  collab (self_after o) = collab (self_after o') ∧
  (∀ k, k ≠ "current_mode" → state self !! k = state self' !! k →
        state (self_after o) !! k = state (self_after o') !! k).
Proof.
  intros Hc Hs Hmode Hhist o o'. subst o o'. rewrite !step_eq. cbv zeta.
  assert (Hcounted : ∀ v k, state self !! k = state self' !! k →
            <["step" := v]> (state self) !! k
            = <["step" := v]> (state self') !! k).
  { intros v k Hk. destruct (decide (k = "step")) as [->|Hne].
    - by rewrite !lookup_insert_eq.
    - by rewrite !lookup_insert_ne. }
  destruct (counter_stands self) as [Hv|[(v & Hv & Hm)|(v & m & Hv & Hm)]];
    pose proof Hv as Hv'; rewrite Hs in Hv'.
  - rewrite (strategic_loop_missing _ _ _ _ Hv),
      (strategic_loop_missing _ _ _ _ Hv'). cbn. auto.
  - rewrite (strategic_loop_type_error _ _ _ _ _ _ Hv Hm),
      (strategic_loop_type_error _ _ _ _ _ _ Hv' Hm). cbn. auto.
  - rewrite (strategic_loop_eq _ _ _ _ _ _ Hv Hm),
      (strategic_loop_eq _ _ _ _ _ _ Hv' Hm). cbv zeta.
    destruct (Z.eqb di 0).
    { cbn [result self_after trace state collab counted]. auto. }
    destruct (Z.eqb (m mod di) 0).
    2: { cbn [result self_after trace state collab counted app].
         rewrite <- Hc. destruct (tactical_act obs (collab self)) as [w r].
         cbn [result self_after trace state collab]. auto. }
    rewrite (strategic_cycle_eq metrics verbose (counted self (VInt m)) (VInt m))
      by apply lookup_insert_eq.
    rewrite (strategic_cycle_eq metrics verbose (counted self' (VInt m)) (VInt m))
      by apply lookup_insert_eq.
    cbv zeta. rewrite !counted_get by done.
    unfold dict_get. rewrite <- Hmode, <- Hhist.
    change (collab (counted self' (VInt m))) with (collab self').
    change (collab (counted self (VInt m))) with (collab self).
    rewrite <- Hc.
    destruct (PipelineRunner stages (collab self) _) as [[w tr] [e|fs]];
      cbn [result self_after trace state collab counted app].
    { auto. }
    destruct (tactical_act obs w) as [w' r].
    cbn [result self_after trace state collab].
    do 3 (split; [reflexivity|]).
    intros k Hk Hagree. rewrite !committed_lookup by done.
    unfold dict_update. rewrite !lookup_union, (Hcounted _ _ Hagree).
    reflexivity.
Qed.

(** ** What a commit stores *)

(** X7.  When the pipeline of a due cycle returns [final_state], the state
    after the call holds, under every key other than [current_mode], the
    value of [final_state] where it has one and the value stored before the
    call elsewhere: what an earlier cycle stored and this one did not
    produce stays.  [current_mode] becomes the [final_mode] of
    [final_state]; without one, the [final_mode] stored by an earlier cycle;
    without that, the [current_mode] the pipeline returned. *)
Theorem commit_overlays_final_state metrics obs di verbose self n input w tr
    final_state :
  state self !! "step" = Some (VInt n) →
  di ≠ 0 → (n + 1) mod di = 0 →
  graph_input metrics (<["step" := VInt (n + 1)]> (state self)) = inr input →
  invoke graph input (collab self) = (w, tr, inr final_state) →
  let st' := state (self_after (step metrics obs di verbose self)) in
  (∀ k, k ≠ "current_mode" →
        st' !! k = match final_state !! k with
                   | Some v => Some v
                   | None => state self !! k
                   end) ∧
  st' !! "current_mode" =
    Some match final_state !! "final_mode" with
         | Some m => m
         | None =>
             match state self !! "final_mode" with
             | Some m => m
             | None => dict_get final_state "current_mode" VNone
             end
         end ∧
  is_Some (final_state !! "current_mode").
Proof.
  intros Hn Hdi Hmod Hin Hrun st'. subst st'.
  pose proof (committed_pipeline_observed metrics di verbose self n input w tr
                final_state Hn Hdi Hmod Hin Hrun) as Hpre.
  rewrite step_eq. cbv zeta. rewrite Hpre.
  cbn [result self_after trace state collab].
  destruct (tactical_act obs w) as [w' r]. cbn [self_after state].
  rewrite invoke_pipeline in Hrun.
  assert (Hkeys : ∀ k, k ∈ ({[ "step"; "current_mode" ]} : gset string) →
            is_Some (final_state !! k)).
  { intros k Hk. apply (PipelineRunner_keys _ _ _ _ _ _ k Hrun).
    unfold graph_input in Hin. rewrite lookup_insert_eq in Hin.
    injection Hin as <-.
    assert (k = "step" ∨ k = "current_mode") as [Ek|Ek] by set_solver;
      rewrite Ek; clear Hk Ek;
      (rewrite restrict_lookup by (unfold OrchestratorState; set_solver)).
    - rewrite lookup_insert_eq. eauto.
    - do 2 (rewrite lookup_insert_ne by done). rewrite lookup_insert_eq. eauto. }
  destruct (Hkeys "current_mode" ltac:(set_solver)) as [cur Hcur].
  destruct (Hkeys "step" ltac:(set_solver)) as [cnt Hcnt].
  split; [|split; [|eauto]].
  - intros k Hk. rewrite committed_lookup by done.
    unfold dict_update. rewrite lookup_union.
    destruct (final_state !! k) as [v|] eqn:Ek.
    + by destruct (<["step" := VInt (n + 1)]> (state self) !! k).
    + assert (k ≠ "step") by congruence.
      rewrite lookup_insert_ne by done.
      by destruct (state self !! k).
  - unfold committed. cbv zeta. rewrite lookup_insert_eq. f_equal.
    unfold dict_get, dict_update. rewrite !lookup_union, Hcur.
    rewrite !lookup_insert_ne by done.
    destruct (final_state !! "final_mode") as [m|];
      destruct (state self !! "final_mode") as [m'|];
      destruct (state self !! "current_mode");
      reflexivity.
Qed.

Lemma stages_keep k :
  nodes_keep estimator_run strategist_run shield_run configurator_run k →
  Forall (λ nf : string * node_fn, keeps k nf.2) stages.
Proof.
  intros (He & Hs & Hh & Hc). repeat constructor; assumption.
Qed.

(** X8.  What the orchestrator puts into the graph comes back unless a
    node overwrites it: after a call in which a cycle ran and completed,
    [metrics] holds the metrics of this call when no node writes [metrics],
    and [history] holds the history stored before the call (the empty list
    when there was none) when no node writes [history]. *)
Theorem unwritten_inputs_pass_through metrics obs di verbose self :
  let pre := strategic_loop metrics di verbose self in
  let st' := state (self_after (step metrics obs di verbose self)) in
  cycle_ran (trace pre) = true →
  result pre = inr tt →
  (nodes_keep estimator_run strategist_run shield_run configurator_run
     "metrics" →
   st' !! "metrics" = Some metrics) ∧
  (nodes_keep estimator_run strategist_run shield_run configurator_run
     "history" →
   st' !! "history" = Some (dict_get (state self) "history" (VList []))).
Proof.
  intros pre st' Hran Hok. subst pre st'.
  destruct (counter_cases self) as [Hnum|(v & m & Hv & Hm)].
  { destruct (step_no_counter metrics obs di verbose self Hnum) as (e & He & _).
    rewrite He in Hok. discriminate. }
  destruct (step_shape metrics obs di verbose self v m Hv Hm)
    as [(_ & Hpre & _)|[(_ & _ & Hpre & _)|
        [(_ & _ & input & w & names & e & _ & _ & _ & Hpre & _)|
         (_ & _ & input & w & fs & w' & r & Hin & Hrun & _ & _ & ->)]]];
    try (rewrite Hpre in Hok, Hran; discriminate).
  cbn [self_after state].
  unfold graph_input in Hin. cbn [counted state] in Hin.
  rewrite lookup_insert_eq in Hin. injection Hin as <-.
  split; intros Hkeep; rewrite committed_lookup by done;
    apply lookup_union_Some_l;
    rewrite (PipelineRunner_untouched (keeps _) _ _ _ _ _ _ _
               (λ f H, H) (stages_keep _ Hkeep) Hrun);
    (rewrite restrict_lookup by (unfold OrchestratorState; set_solver)).
  - rewrite lookup_insert_ne by done. apply lookup_insert_eq.
  - do 3 (rewrite lookup_insert_ne by done). rewrite lookup_singleton_eq.
    unfold dict_get. by rewrite lookup_insert_ne.
Qed.

(** ** The order of effects *)

(** X9.  What a call to [step] does, it does in one order: the printed
    line, if any, comes first and only before a cycle; then the nodes that
    ran, an initial segment of Estimator, Strategist, Shield, Configurator;
    then, last and at most once, the tactical call, which follows either no
    node or all four. *)
Theorem effects_come_in_order metrics obs di verbose self :
  ∃ printed names act,
    trace (step metrics obs di verbose self)
      = printed ++ (EvNode <$> names) ++ act ∧
    (printed = [] ∧ (verbose = false ∨ names = []) ∨
     verbose = true ∧ names ≠ [] ∧ ∃ m, printed = [EvPrint (VInt m)]) ∧
    names `prefix_of` ["estimator"; "strategist"; "shield"; "configurator"] ∧
    (act = [] ∨
     act = [EvAct obs] ∧
     (names = [] ∨
      names = ["estimator"; "strategist"; "shield"; "configurator"])).
Proof.
  destruct (counter_cases self) as [Hnum|(v & m & Hv & Hm)].
  { destruct (step_no_counter metrics obs di verbose self Hnum) as (e & _ & ->).
    exists [], [], []. cbn [trace].
    split; [reflexivity|]. split; [auto|]. split; [apply prefix_nil | auto]. }
  destruct (step_shape metrics obs di verbose self v m Hv Hm)
    as [(_ & _ & ->)|[(_ & _ & _ & w & r & _ & ->)|
        [(_ & _ & input & w & names & e & _ & Hrun & Hne & _ & ->)|
         (_ & _ & input & w & fs & w' & r & _ & _ & _ & _ & ->)]]];
    cbn [trace].
  - exists [], [], [].
    split; [reflexivity|]. split; [auto|]. split; [apply prefix_nil | auto].
  - exists [], [], [EvAct obs].
    split; [reflexivity|]. split; [auto|]. split; [apply prefix_nil | auto].
  - exists (if verbose then [EvPrint (VInt m)] else []), names, [].
    rewrite app_nil_r. split; [reflexivity|].
    split; [destruct verbose; eauto 6|]. split; [|auto].
    destruct (PipelineRunner_trace stages (collab self)
                (restrict OrchestratorState input)) as (names' & Htr & Hpre & _).
    rewrite Hrun in Htr. cbn [fst snd] in Htr.
    apply (f_equal nodes_run) in Htr.
    rewrite !(proj1 (trace_of_nodes _)) in Htr. by subst names'.
  - exists (if verbose then [EvPrint (VInt m)] else []), (stages.*1), [EvAct obs].
    rewrite <- app_assoc. split; [reflexivity|].
    split; [destruct verbose; [right|left]; eauto 6|].
    split; [reflexivity | auto].
Qed.

End Properties.

(** * The statements on the small deployment *)

Lemma demo_nodes_keep_step :
  nodes_keep_step Demo.estimator Demo.strategist Demo.shield Demo.configurator.
Proof.
  repeat split; intros w st w' u [= _ <-]; reflexivity.
Qed.

Lemma demo_shield_emits_final_mode : emits_final_mode Demo.shield.
Proof. intros w st w' u [= _ <-]. eexists. reflexivity. Qed.

(** The first tick with an interval of one: the cycle runs and commits. *)
Lemma current_mode_is_final_mode_witness :
  let pre := strategic_loop (Obs := nat) Demo.estimator Demo.strategist
               Demo.shield Demo.configurator (VDict []) 1 false Demo.fresh in
  let self' := self_after (Demo.step_ok (VDict []) 7%nat 1 false Demo.fresh) in
  cycle_ran (trace pre) = true ∧ result pre = inr tt ∧
  state self' !! "final_mode" = Some (VStr "conservative") ∧
  state self' !! "current_mode" = Some (VStr "conservative") ∧
  ∃ m, state self' !! "final_mode" = Some m ∧
       state self' !! "current_mode" = Some m.
Proof.
  intros pre self'.
  assert (Hran : cycle_ran (trace pre) = true) by (vm_compute; reflexivity).
  assert (Hok : result pre = inr tt) by (vm_compute; reflexivity).
  assert (Hfinal : state self' !! "final_mode" = Some (VStr "conservative"))
    by (vm_compute; reflexivity).
  destruct (current_mode_is_final_mode Demo.estimator Demo.strategist
              Demo.shield Demo.configurator Demo.act (VDict []) 7%nat 1
              false Demo.fresh Hran Hok) as [Hmirror Hshield].
  split; [exact Hran|]. split; [exact Hok|]. split; [exact Hfinal|].
  split; [exact (Hmirror _ Hfinal)|].
  exact (Hshield demo_shield_emits_final_mode).
Defined.

(** Four ticks with an interval of two. *)
Lemma cycle_runs_on_multiples_of_interval_witness :
  state Demo.fresh !! "step" = Some (VInt 0) ∧ 0 < 2 ∧
  (cycle_ran (trace (Demo.step_ok (VDict []) 7%nat 2 false Demo.fresh)) = true
   ↔ (0 + 1) mod 2 = 0) ∧
  (λ o, cycle_ran (trace o)) <$>
    run Demo.estimator Demo.strategist Demo.shield Demo.configurator Demo.act
      [Demo.tick_every 2; Demo.tick_every 2; Demo.tick_every 2;
       Demo.tick_every 2] Demo.fresh
  = [false; true; false; true].
Proof.
  pose proof (cycle_runs_on_multiples_of_interval "balanced" Demo.estimator
                Demo.strategist Demo.shield Demo.configurator Demo.act)
    as (Hcall & _ & Hfour).
  assert (Hn : state Demo.fresh !! "step" = Some (VInt 0)) by reflexivity.
  assert (Hdi : 0 < 2) by lia.
  split; [exact Hn|]. split; [exact Hdi|].
  split; [exact (Hcall (VDict []) 7%nat 2 false Demo.fresh 0 Hn Hdi)|].
  exact (Hfour demo_nodes_keep_step (Demo.tick_every 2) (Demo.tick_every 2)
           (Demo.tick_every 2) (Demo.tick_every 2) 0%nat
           eq_refl eq_refl eq_refl eq_refl).
Defined.

(** A tick whose estimator raises, and a tick on which no cycle is due. *)
Lemma tactical_call_follows_strategic_loop_witness :
  let bad := Demo.step_bad (VDict []) 7%nat 1 false Demo.fresh in
  let idle := Demo.step_ok (VDict []) 7%nat 2 false Demo.fresh in
  (result bad = inl (StageError "estimator") ∧ acted (trace bad) = false) ∧
  (trace idle = [EvAct 7%nat] ∧ result idle = inr 7%nat).
Proof.
  intros bad idle. split.
  - pose proof (tactical_call_follows_strategic_loop Demo.failing_estimator
                  Demo.strategist Demo.shield Demo.configurator Demo.act
                  (VDict []) 7%nat 1 false Demo.fresh)
      as (Hraise & _ & _ & Hstage).
    assert (Hpre : result (strategic_loop (Obs := nat) Demo.failing_estimator
                     Demo.strategist Demo.shield Demo.configurator (VDict [])
                     1 false Demo.fresh) = inl (StageError "estimator")).
    { eapply (Hstage 0);
        [reflexivity | lia | reflexivity | reflexivity | reflexivity]. }
    destruct (Hraise _ Hpre) as (Hres & Hact & _).
    split; [exact Hres | exact Hact].
  - pose proof (tactical_call_follows_strategic_loop Demo.estimator
                  Demo.strategist Demo.shield Demo.configurator Demo.act
                  (VDict []) 7%nat 2 false Demo.fresh)
      as (_ & Hreturn & Hidle & _).
    assert (Hpre : result (strategic_loop (Obs := nat) Demo.estimator
                     Demo.strategist Demo.shield Demo.configurator (VDict [])
                     2 false Demo.fresh) = inr tt).
    { apply (Hidle 0); [reflexivity | lia | vm_compute; discriminate]. }
    destruct (Hreturn Hpre) as (Htr & _ & Hact & _).
    apply (f_equal snd) in Hact. cbn [snd] in Hact.
    subst idle. unfold Demo.step_ok. rewrite Htr, <- Hact.
    split; vm_compute; reflexivity.
Defined.


(** The healthy nodes on a graph input: the strategist reads the
    estimator's update and the configurator the shield's. *)
Lemma graph_is_linear_pipeline_witness :
  ∃ final_state : pydict,
    invoke (Obs := nat)
      (_build_graph Demo.estimator Demo.strategist Demo.shield Demo.configurator)
      {[ "step" := VInt 1; "metrics" := VDict [];
         "current_mode" := VStr "balanced"; "history" := VList [] ]} 0%nat
    = (4%nat,
       [EvNode "estimator"; EvNode "strategist"; EvNode "shield";
        EvNode "configurator"],
       inr final_state) ∧
    final_state !! "reasoning" = Some (VStr "congested") ∧
    final_state !! "applied_params"
      = Some (VDict [("mode", VStr "conservative")]) ∧
    final_state !! "step" = Some (VInt 1).
Proof.
  eexists. split.
  - eapply (proj2 (proj2 (proj2 (proj2
              (graph_is_linear_pipeline (Obs := nat) Demo.estimator
                 Demo.strategist Demo.shield Demo.configurator _ 0%nat)))));
      reflexivity.
  - vm_compute. repeat split.
Defined.

(** The first tick with an interval of one commits a cycle: the counter
    is at one afterwards; after three more ticks it is at four. *)
Lemma step_counter_increments_witness :
  state Demo.fresh !! "step" = Some (VInt 0) ∧
  state (self_after (Demo.step_ok (VDict []) 7%nat 1 false Demo.fresh)) !! "step"
    = Some (VInt (0 + 1)) ∧
  state (after_calls Demo.estimator Demo.strategist Demo.shield
           Demo.configurator Demo.act
           [Demo.tick_every 1; Demo.tick_every 0; Demo.tick_every 2;
            Demo.tick_every 3] Demo.fresh) !! "step"
    = Some (VInt 4).
Proof.
  assert (Hn : state Demo.fresh !! "step" = Some (VInt 0)) by reflexivity.
  destruct (step_counter_increments "balanced" Demo.estimator Demo.strategist
              Demo.shield Demo.configurator Demo.act demo_nodes_keep_step)
    as [Hcall Hcalls].
  split; [exact Hn|].
  split; [exact (Hcall (VDict []) 7%nat 1 false Demo.fresh 0 Hn)|].
  exact (Hcalls [Demo.tick_every 1; Demo.tick_every 0; Demo.tick_every 2;
                 Demo.tick_every 3] 0%nat).
Defined.

(** The first tick with an interval of two runs no cycle. *)
Lemma idle_tick_changes_counter_only_witness :
  let o := Demo.step_ok (VDict []) 7%nat 2 false Demo.fresh in
  cycle_ran (trace o) = false ∧
  state (self_after o) !! "current_mode" = state Demo.fresh !! "current_mode" ∧
  state (self_after o) = <["step" := VInt (0 + 1)]> (state Demo.fresh).
Proof.
  intros o.
  assert (Hquiet : cycle_ran (trace o) = false) by (vm_compute; reflexivity).
  destruct (proj2 (idle_tick_changes_counter_only "balanced" Demo.estimator
                     Demo.strategist Demo.shield Demo.configurator Demo.act
                     (VDict []) 7%nat 2 false Demo.fresh) Hquiet)
    as [Hframe Hcount].
  split; [exact Hquiet|]. split.
  - apply Hframe. discriminate.
  - apply Hcount. reflexivity.
Defined.

(** The first tick with an interval of zero. *)
Lemma step_zero_interval_witness :
  let o := Demo.step_ok (VDict []) 7%nat 0 false Demo.fresh in
  state Demo.fresh !! "step" = Some (VInt 0) ∧
  result o = inl ZeroDivisionError ∧ trace o = [] ∧
  self_after o = counted Demo.fresh (VInt (0 + 1)).
Proof.
  intros o.
  assert (Hn : state Demo.fresh !! "step" = Some (VInt 0)) by reflexivity.
  destruct (step_zero_interval Demo.estimator Demo.strategist Demo.shield
              Demo.configurator Demo.act (VDict []) 7%nat false Demo.fresh)
    as (_ & Htr & _ & _ & _ & Hint).
  destruct (Hint 0 Hn) as [Hres Hself].
  split; [exact Hn|]. split; [exact Hres|]. split; [exact Htr | exact Hself].
Defined.

(** Three idle ticks on a new orchestrator. *)
Lemma debug_info_before_first_cycle_witness :
  let calls := [Demo.tick_every 5; Demo.tick_every 5; Demo.tick_every 5] in
  let self := after_calls Demo.estimator Demo.strategist Demo.shield
                Demo.configurator Demo.act calls Demo.fresh in
  result (get_debug_info (Obs := nat) self) =
    inr {[ "mode" := VNone; "symbolic_state" := VNone;
           "reasoning" := VNone; "shield_active" := VNone ]} ∧
  state self !! "current_mode" = Some (VStr "balanced").
Proof.
  intros calls self.
  apply (proj1 (debug_info_before_first_cycle "balanced" Demo.estimator
                  Demo.strategist Demo.shield Demo.configurator Demo.act)
           calls 0%nat).
  repeat (apply Forall_cons; split; [vm_compute; reflexivity|]).
  apply Forall_nil. exact I.
Defined.

(** * Where the code departs from the specification *)

(** C3 as stated fails: with an estimator that raises, the first tick with
    an interval of one raises too, and the tactical executor is not called. *)
Lemma failing_estimator_stops_step :
  let o := Demo.step_bad (VDict []) 7%nat 1 false Demo.fresh in
  result o = inl (StageError "estimator") ∧
  acted (trace o) = false ∧
  ¬ ∃ action, result o = inr action.
Proof.
  intros o. split; [vm_compute; reflexivity|].
  split; [vm_compute; reflexivity|].
  intros [action Ha]. vm_compute in Ha. discriminate Ha.
Qed.


(** C7 as stated fails: a tick on which no cycle runs changes the state,
    because it increments the counter. *)
Lemma idle_tick_changes_state :
  let o := Demo.step_ok (VDict []) 7%nat 2 false Demo.fresh in
  cycle_ran (trace o) = false ∧
  state Demo.fresh !! "step" = Some (VInt 0) ∧
  state (self_after o) !! "step" = Some (VInt 1) ∧
  state (self_after o) ≠ state Demo.fresh.
Proof.
  intros o. split; [vm_compute; reflexivity|].
  split; [reflexivity|]. split; [vm_compute; reflexivity|].
  intros Heq. apply (f_equal (λ d : pydict, d !! "step")) in Heq.
  vm_compute in Heq. discriminate Heq.
Qed.

(** * The model at work *)

(** Python's [%] takes the sign of the divisor and raises on zero; [+= 1]
    accepts [bool] and rejects strings. *)
Example py_mod_examples :
  py_mod (VInt 7) 2 = inr (VInt 1) ∧
  py_mod (VInt 3) (-2) = inr (VInt (-1)) ∧
  py_mod (VInt 4) (-2) = inr (VInt 0) ∧
  py_mod (VInt 4) 0 = inl ZeroDivisionError ∧
  py_add1 (VBool true) = inr (VInt 2) ∧
  py_add1 (VStr "3") = inl TypeError.
Proof. repeat split. Qed.

(** The second tick of a verbose caller with an interval of two: the line
    is printed, the four nodes run in order, the tactical executor is called
    last, and six calls have been made into the collaborators (one [act] on
    the first tick, four nodes and one [act] on the second). *)
Example second_tick :
  let first := Demo.step_ok (VDict []) 7%nat 2 true Demo.fresh in
  let second := Demo.step_ok (VDict []) 8%nat 2 true (self_after first) in
  trace first = [EvAct 7%nat] ∧
  trace second =
    [EvPrint (VInt 2); EvNode "estimator"; EvNode "strategist";
     EvNode "shield"; EvNode "configurator"; EvAct 8%nat] ∧
  result second = inr 8%nat ∧
  collab (self_after second) = 6%nat ∧
  state (self_after second) !! "step" = Some (VInt 2) ∧
  state (self_after second) !! "reasoning" = Some (VStr "congested") ∧
  state (self_after second) !! "proposed_mode" = Some (VStr "aggressive") ∧
  state (self_after second) !! "current_mode" = Some (VStr "conservative").
Proof. vm_compute. repeat split. Qed.

(** The executor is not tied to chains: in a graph whose entry point fans
    out to two nodes, both run in the same superstep on the same snapshot,
    and writing one key twice in that superstep is refused. *)
Example fan_out :
  let left_node : @node_fn nat := λ w _, (S w, inr {[ "reasoning" := VStr "l" ]}) in
  let right_node : @node_fn nat := λ w _, (S w, inr {[ "reasoning" := VStr "r" ]}) in
  let g := add_edge "right" END (add_edge "left" END
           (add_edge START "right" (add_edge START "left"
           (add_node "right" right_node (add_node "left" left_node
           (new_graph OrchestratorState)))))) in
  invoke (Obs := nat) g ∅ 0%nat
    = (2%nat, [EvNode "left"; EvNode "right"], inl InvalidUpdateError).
Proof. vm_compute. reflexivity. Qed.

(** * Further statements on the small deployment *)

Lemma demo_nodes_keep_metrics :
  nodes_keep Demo.estimator Demo.strategist Demo.shield Demo.configurator
    "metrics".
Proof. repeat split; intros w st w' u [= _ <-]; reflexivity. Qed.

Lemma demo_nodes_keep_history :
  nodes_keep Demo.estimator Demo.strategist Demo.shield Demo.configurator
    "history".
Proof. repeat split; intros w st w' u [= _ <-]; reflexivity. Qed.

(** The keys of the seasoned orchestrator survive a failing tick. *)
Lemma state_keys_are_never_removed_witness :
  let o := Demo.step_bad (VDict []) 7%nat 5 false Demo.seasoned in
  is_Some (state Demo.seasoned !! "reasoning") ∧
  result o = inl (StageError "estimator") ∧
  is_Some (state (self_after o) !! "reasoning").
Proof.
  intros o.
  assert (Hk : is_Some (state Demo.seasoned !! "reasoning"))
    by (eexists; reflexivity).
  split; [exact Hk|]. split; [vm_compute; reflexivity|].
  exact (proj1 (state_keys_are_never_removed "balanced" Demo.failing_estimator
                  Demo.strategist Demo.shield Demo.configurator Demo.act)
           (VDict []) 7%nat 5 false Demo.seasoned "reasoning" Hk).
Defined.

(** The seasoned orchestrator mirrors its mode, and still does after a
    cycle whose shield names no mode. *)
Lemma mode_mirror_is_invariant_witness :
  let o := step Demo.estimator Demo.strategist Demo.silent_shield
             Demo.configurator Demo.act (VDict []) 7%nat 5 false Demo.seasoned in
  mirrors (state Demo.seasoned) ∧
  cycle_ran (trace o) = true ∧
  mirrors (state (self_after o)).
Proof.
  intros o.
  assert (Hm : mirrors (state Demo.seasoned)).
  { intros m Hfinal. vm_compute in Hfinal. injection Hfinal as <-.
    vm_compute. reflexivity. }
  split; [exact Hm|]. split; [vm_compute; reflexivity|].
  exact (proj1 (mode_mirror_is_invariant "balanced" Demo.estimator
                  Demo.strategist Demo.silent_shield Demo.configurator Demo.act)
           (VDict []) 7%nat 5 false Demo.seasoned Hm).
Defined.


(** The first cycle of a new orchestrator and of one that differs from it
    only in a stored [reasoning]. *)
Lemma step_reads_three_fields_witness :
  let other : @Orchestrator nat :=
    {| collab := 0%nat;
       state := <["reasoning" := VStr "link lost"]> (state Demo.fresh) |} in
  let o := Demo.step_ok (VDict []) 7%nat 1 false Demo.fresh in
  let o' := Demo.step_ok (VDict []) 7%nat 1 false other in
  state Demo.fresh !! "reasoning" ≠ state other !! "reasoning" ∧
  result o = result o' ∧ trace o = trace o' ∧
  collab (self_after o) = collab (self_after o') ∧
  state (self_after o) !! "step" = state (self_after o') !! "step".
Proof.
  intros other o o'.
  destruct (step_reads_three_fields Demo.estimator Demo.strategist Demo.shield
              Demo.configurator Demo.act (VDict []) 7%nat 1 false Demo.fresh
              other eq_refl eq_refl eq_refl eq_refl)
    as (Hres & Htr & Hcollab & Hkeys).
  split; [vm_compute; discriminate|].
  split; [exact Hres|]. split; [exact Htr|]. split; [exact Hcollab|].
  apply Hkeys; [discriminate | reflexivity].
Defined.

(** A cycle on the seasoned orchestrator whose shield names no mode: the
    new reasoning replaces the old one, the old [final_mode] stays, and
    [current_mode] falls back on it. *)
Lemma commit_overlays_final_state_witness :
  let o := step Demo.estimator Demo.strategist Demo.silent_shield
             Demo.configurator Demo.act (VDict []) 7%nat 5 false Demo.seasoned in
  state Demo.seasoned !! "step" = Some (VInt 4) ∧ (4 + 1) mod 5 = 0 ∧
  state (self_after o) !! "reasoning" = Some (VStr "congested") ∧
  state (self_after o) !! "final_mode" = Some (VStr "emergency") ∧
  state (self_after o) !! "current_mode" = Some (VStr "emergency").
Proof.
  intros o.
  assert (Hn : state Demo.seasoned !! "step" = Some (VInt 4)) by reflexivity.
  assert (Hmod : (4 + 1) mod 5 = 0) by reflexivity.
  edestruct (commit_overlays_final_state Demo.estimator Demo.strategist
               Demo.silent_shield Demo.configurator Demo.act (VDict []) 7%nat
               5 false Demo.seasoned 4) as (Hkeys & Hmode & _);
    [exact Hn | lia | exact Hmod | reflexivity | reflexivity |].
  split; [exact Hn|]. split; [exact Hmod|].
  split; [rewrite Hkeys by discriminate; vm_compute; reflexivity|].
  split; [rewrite Hkeys by discriminate; vm_compute; reflexivity|].
  subst o. rewrite Hmode. vm_compute. reflexivity.
Defined.

(** The first cycle of a new orchestrator stores the metrics of the call
    and keeps the empty history. *)
Lemma unwritten_inputs_pass_through_witness :
  let metrics := VDict [("rsrp", VInt (-90))] in
  let pre := strategic_loop (Obs := nat) Demo.estimator Demo.strategist
               Demo.shield Demo.configurator metrics 1 false Demo.fresh in
  let st' := state (self_after (Demo.step_ok metrics 7%nat 1 false Demo.fresh)) in
  cycle_ran (trace pre) = true ∧ result pre = inr tt ∧
  st' !! "metrics" = Some metrics ∧
  st' !! "history" = Some (VList []).
Proof.
  intros metrics pre st'.
  assert (Hran : cycle_ran (trace pre) = true) by (vm_compute; reflexivity).
  assert (Hok : result pre = inr tt) by (vm_compute; reflexivity).
  destruct (unwritten_inputs_pass_through Demo.estimator Demo.strategist
              Demo.shield Demo.configurator Demo.act metrics 7%nat 1 false
              Demo.fresh Hran Hok) as [Hmetrics Hhistory].
  split; [exact Hran|]. split; [exact Hok|].
  split; [exact (Hmetrics demo_nodes_keep_metrics)|].
  exact (Hhistory demo_nodes_keep_history).
Defined.
